(** * Strategies_Skeleton_Final.py: universe, statements, growth screen, weights

    A shallow embedding of the equity-strategy script.  Every function of
    the script that the properties below talk about is transcribed as a Rocq
    function of the same name:

    - the three ticker sources ([fetch_sp500_tickers],
      [get_dow_jones_tickers], [get_nasdaq_100_ticker_symbols]) over a
      model of the web given as a function from URLs to responses;
    - [merge_and_deduplicate_dynamic] over stdpp's [gset], and the symbol
      normalisation of the script's top level;
    - [fetch_fundamental_data] over dense data frames (labels on both axes,
      a matrix of binary64 cells);
    - [get_growth_filter] column by column, as pandas evaluates it;
    - [calculate_market_cap_weights] over an insertion-ordered dictionary;
    - [common_info_keys] over the key sets of the provider's info, and the
      script's top level from the sources to the weights.

    Numbers are the ones Python uses: statement cells are binary64 floats
    (Rocq's primitive floats, with NaN for a missing value), market caps are
    Python integers ([Z]), and a weight is the binary64 result of
    [round (cap / total * 100, 2)].  Python exceptions are values of [exn],
    carried by the [result] monad. *)

From Stdlib Require Import Floats ZArith String Ascii List.
From stdpp Require Import base option list gmap strings.
Import ListNotations.

Set Warnings "-inexact-float,-clear-no-such-hyp".

Local Open Scope string_scope.
Local Open Scope Z_scope.

(** ** Python exceptions and the monad that carries them *)

Inductive exn : Type :=
| RequestException            (* requests.get could not complete the request *)
| HTTPError (status : Z)      (* response.raise_for_status() *)
| AttributeError              (* attribute access on None *)
| IndexError                  (* list index out of range *)
| KeyError (label : string)   (* df[label] on an absent column *)
| ValueError                  (* pd.concat of no objects *)
| ZeroDivisionError           (* int / 0 *)
| OverflowError.              (* int / int too large for a float *)

Inductive result (A : Type) : Type :=
| Ok (a : A)
| Raise (e : exn).
Arguments Ok {A} a.
Arguments Raise {A} e.

#[global] Instance result_ret : MRet result := fun A a => Ok a.
#[global] Instance result_bind : MBind result := fun A B f m =>
  match m with
  | Ok a => f a
  | Raise e => Raise e
  end.

(** [try: body except Exception: handler] *)
Definition try_except {A} (body : result A) (handler : exn -> A) : A :=
  match body with
  | Ok a => a
  | Raise e => handler e
  end.

(** [l[i]] on a Python list *)
Definition py_index {A} (l : list A) (i : nat) : result A :=
  match l !! i with
  | Some x => Ok x
  | None => Raise IndexError
  end.

(** ** Strings

    A Python [str] is a sequence of Unicode code points; a string here is
    the byte string of its UTF-8 encoding.  Equality, substring search and
    the replacement of one ASCII character by another are the same on
    both. *)

(** The code points [c] for which [c.isspace()] holds: the ones
    [str.strip()] removes at both ends. *)
Definition whitespace_code_points : list N :=
  [0x09; 0x0A; 0x0B; 0x0C; 0x0D; 0x1C; 0x1D; 0x1E; 0x1F; 0x20; 0x85; 0xA0;
   0x1680; 0x2000; 0x2001; 0x2002; 0x2003; 0x2004; 0x2005; 0x2006; 0x2007;
   0x2008; 0x2009; 0x200A; 0x2028; 0x2029; 0x202F; 0x205F; 0x3000]%N.

(** The UTF-8 encoding of a code point. *)
Definition utf8 (c : N) : string :=
  let byte := ascii_of_N in
  let continuation n := byte (0x80 + n mod 0x40)%N in
  if (c <? 0x80)%N then String (byte c) ""
  else if (c <? 0x800)%N then
    String (byte (0xC0 + c / 0x40)%N) (String (continuation c) "")
  else if (c <? 0x10000)%N then
    String (byte (0xE0 + c / 0x1000)%N)
      (String (continuation (c / 0x40)%N) (String (continuation c) ""))
  else
    String (byte (0xF0 + c / 0x40000)%N)
      (String (continuation (c / 0x1000)%N)
         (String (continuation (c / 0x40)%N) (String (continuation c) ""))).

(** The encodings of the whitespace code points. *)
Definition whitespace : list string := utf8 <$> whitespace_code_points.

(** [s.removeprefix(p)], when [s] starts with [p] *)
Fixpoint removeprefix (p s : string) : option string :=
  match p, s with
  | EmptyString, _ => Some s
  | String a p', String b s' => if Ascii.eqb a b then removeprefix p' s' else None
  | String _ _, EmptyString => None
  end.

(** The string without its first code point, when that is one of the given
    ones. *)
Definition drop_first (encodings : list string) (s : string) : option string :=
  foldr (fun w rest => match removeprefix w s with Some s' => Some s' | None => rest end)
        None encodings.

(** The string without the given code points at its beginning; every step
    removes a byte at least, so the length of the string bounds their
    number. *)
Fixpoint drop_leading (encodings : list string) (n : nat) (s : string) : string :=
  match n with
  | O => s
  | S n' =>
      match drop_first encodings s with
      | Some s' => drop_leading encodings n' s'
      | None => s
      end
  end.

(** [s.lstrip()] *)
Definition lstrip (s : string) : string := drop_leading whitespace (String.length s) s.

(** [s.rstrip()]: the same from the other end.  No encoding of a code point
    ends with the encoding of another, so the bytes at the end of a string
    are those of a whitespace code point only when it ends with one. *)
Definition rstrip (s : string) : string :=
  String.rev (drop_leading (String.rev <$> whitespace) (String.length s) (String.rev s)).

(** [s.strip()] *)
Definition strip (s : string) : string := rstrip (lstrip s).

(** [needle in hay] on strings *)
Fixpoint str_contains (needle hay : string) : bool :=
  String.prefix needle hay ||
  match hay with
  | String _ hay' => str_contains needle hay'
  | EmptyString => false
  end.

(** [s.replace(old, new)] for one-character [old] and [new] *)
Fixpoint str_replace (old new : ascii) (s : string) : string :=
  match s with
  | String c s' => String (if Ascii.eqb c old then new else c) (str_replace old new s')
  | EmptyString => EmptyString
  end.

(** ** The web, as the ticker sources see it

    A parsed page is given by what BeautifulSoup's queries return on it: the
    scraping library itself is outside the script.  A table is the list of
    its [tr] elements in document order; a [tr] carries its text and its
    [td] cells; a cell is the list of its text nodes in document order. *)

Definition td : Type := list string.

Record tr : Type := { tr_text : string; tds : list td }.

(** [cell.text]: the text nodes one after the other. *)
Definition text (cell : td) : string := String.concat "" cell.

(** [cell.get_text(strip=True)]: every text node is stripped, the ones that
    are empty then are left out, and the others are joined without a
    separator. *)
Definition get_text_strip (cell : td) : string :=
  String.concat "" (filter (fun node => node <> "") (strip <$> cell)).

(** The texts of [row.find_all('td')]. *)
Definition td_texts (row : tr) : list string := text <$> tds row.

Definition html_table : Type := list tr.

Record page : Type := {
  find_table_by_id : string -> option html_table;        (* soup.find('table', {'id': _}) *)
  find_table_by_class : string -> option html_table;     (* soup.find('table', {'class': _}) *)
  find_all_tables_by_class : string -> list html_table   (* soup.find_all('table', {'class': _}) *)
}.

Record response : Type := { status_code : Z; soup : page }.

(** The web answers a URL with a response, or the request fails. *)
Definition web : Type := string -> option response.

(** [requests.get(url)] *)
Definition requests_get (w : web) (url : string) : result response :=
  match w url with
  | Some r => Ok r
  | None => Raise RequestException
  end.

(** [response.raise_for_status()] *)
Definition raise_for_status (r : response) : result unit :=
  if (400 <=? status_code r) && (status_code r <? 600)
  then Raise (HTTPError (status_code r))
  else Ok tt.

Definition sp500_url : string := "https://en.wikipedia.org/wiki/List_of_S%26P_500_companies".
Definition dow_jones_url : string := "https://en.wikipedia.org/wiki/Dow_Jones_Industrial_Average".
Definition nasdaq_100_url : string := "https://en.wikipedia.org/wiki/Nasdaq-100".

Definition fetch_sp500_tickers (w : web) : result (list string) :=
  response ← requests_get w sp500_url;
  _ ← raise_for_status response;
  match find_table_by_id (soup response) "constituents" with
  | None => Raise AttributeError
  | Some table =>
      mapM (fun row => cell ← py_index (td_texts row) 0; Ok (strip cell)) (tail table)
  end.

(** The body of the [try] block of [get_dow_jones_tickers]. *)
Definition dow_jones_body (w : web) : result (list string) :=
  response ← requests_get w dow_jones_url;
  if status_code response =? 200 then
    match find_table_by_class (soup response) "wikitable sortable" with
    | Some table =>
        foldl (fun (acc : result (list string)) row =>
                 tickers ← acc;
                 let cells := tds row in
                 if (0 <? length cells)%nat
                 then cell ← py_index cells 1; Ok (tickers ++ [get_text_strip cell])%list
                 else Ok tickers)
              (Ok []) (tail table)
    | None => Ok []
    end
  else Ok [].

Definition get_dow_jones_tickers (w : web) : list string :=
  try_except (dow_jones_body w) (fun _ => []).

(** The first table whose first [tr] mentions 'Symbol'. *)
Fixpoint locate_symbol_table (tables : list html_table) : option html_table :=
  match tables with
  | [] => None
  | table :: rest =>
      match head table with
      | Some headers =>
          if str_contains "Symbol" (tr_text headers) then Some table
          else locate_symbol_table rest
      | None => locate_symbol_table rest
      end
  end.

Definition get_nasdaq_100_ticker_symbols (w : web) : result (list string) :=
  response ← requests_get w nasdaq_100_url;
  let tables := find_all_tables_by_class (soup response) "wikitable" in
  match locate_symbol_table tables with
  | None => Ok []
  | Some nasdaq_table =>
      foldl (fun (acc : result (list string)) row =>
               ticker_symbols ← acc;
               let cols := td_texts row in
               if (2 <=? length cols)%nat
               then symbol ← py_index cols 1; Ok (ticker_symbols ++ [strip symbol])%list
               else Ok ticker_symbols)
            (Ok []) (tail nasdaq_table)
  end.

(** ** Universe builder *)

(** The union of the argument lists as a set, then [list(merged_set)].
    The order in which Python lists a set is unspecified; [elements] fixes
    some order in the same way, and no property below depends on it. *)
Definition merge_and_deduplicate_dynamic (lists : list (list string)) : list string :=
  let merged_set : gset string := ⋃ (list_to_set <$> lists) in
  elements merged_set.

(** [ticker.replace('.', '-') if ticker in ("BRK.B", "BF.B") else ticker] *)
Definition normalize_symbol (ticker : string) : string :=
  if bool_decide (ticker ∈ ["BRK.B"; "BF.B"])
  then str_replace "." "-" ticker
  else ticker.

(** The merge and the normalising comprehension of the script's top level. *)
Definition build_universe (lists : list (list string)) : list string :=
  normalize_symbol <$> merge_and_deduplicate_dynamic lists.

(** The script's first five statements: the three fetches in the order the
    script runs them, the merge and the normalisation. *)
Definition tickers (w : web) : result (list string) :=
  sp_500_tickers ← fetch_sp500_tickers w;
  let dow_jones_tickers := get_dow_jones_tickers w in
  nasdaq_tickers ← get_nasdaq_100_ticker_symbols w;
  Ok (build_universe [nasdaq_tickers; sp_500_tickers; dow_jones_tickers]).

(** ** Data frames

    A frame is a dense table: row labels, column labels and one list of
    binary64 cells per row.  A statement table of the data provider is a
    frame of line items by reporting periods. *)

Definition Period : Type := string.

Record frame (I C : Type) : Type := {
  index : list I;
  columns : list C;
  values : list (list float)
}.
Arguments index {I C} f.
Arguments columns {I C} f.
Arguments values {I C} f.

(** Every row has one cell per column, and there is one row per label. *)
Definition well_shaped {I C} (f : frame I C) : Prop :=
  length (values f) = length (index f) /\
  Forall (fun row => length row = length (columns f)) (values f).

(** A statement table of the provider has, besides, one column per
    reporting period. *)
Definition statement_table {I C} (f : frame I C) : Prop :=
  well_shaped f /\ NoDup (columns f).

(** The position of the first occurrence of a label. *)
Definition position `{EqDecision A} (x : A) (l : list A) : option nat :=
  fst <$> list_find (fun y => y = x) l.

(** The cell of a frame under a row label and a column label. *)
Definition frame_cell {I C} `{EqDecision I, EqDecision C}
    (f : frame I C) (i : I) (c : C) : option float :=
  r ← position i (index f);
  j ← position c (columns f);
  row ← values f !! r;
  row !! j.

(** The cell of a row at a position, NaN where there is none. *)
Definition cell (row : list float) (j : nat) : float := default nan (row !! j).

(** The labels of a list in the order of their first appearance. *)
Definition unique `{EqDecision A} (l : list A) : list A :=
  foldl (fun seen x => if decide (x ∈ seen) then seen else seen ++ [x])%list [] l.

(** A row laid out for new column labels: the old cell where the label was
    present, NaN elsewhere. *)
Definition reindex_row `{EqDecision C} (old new : list C) (row : list float) : list float :=
  (fun c => match position c old with Some j => cell row j | None => nan end) <$> new.

(** [pd.concat(objs)]: the rows of the frames one after the other, over the
    union of their columns.  The union keeps the labels in the order of
    their first appearance; pandas sorts it when the frames have date
    columns that differ, which changes the order of the periods of a ticker
    and nothing else. *)
Definition pd_concat `{EqDecision C} {I} (objs : list (frame I C)) : result (frame I C) :=
  match objs with
  | [] => Raise ValueError
  | _ =>
      let cols := unique (concat (columns <$> objs)) in
      Ok {| index := concat (index <$> objs);
            columns := cols;
            values := concat ((fun f => reindex_row (columns f) cols <$> values f) <$> objs) |}
  end.

(** [fs.T] *)
Definition transpose {I C} (f : frame I C) : frame C I :=
  {| index := columns f;
     columns := index f;
     values := (fun j => (fun row => cell row j) <$> values f) <$> seq 0 (length (columns f)) |}.

(** [fs['Ticker'] = symbol], then
    [fs.set_index(['Ticker'], append=True).swaplevel(0, 1)]: the symbol
    becomes the outer level of the row index; a column that was labelled
    'Ticker' is overwritten by the assignment and leaves the columns with
    [set_index]. *)
Definition set_index_Ticker (symbol : string) (fs : frame Period string)
  : frame (string * Period) string :=
  let keep := filter (fun j => columns fs !! j ≠ Some "Ticker") (seq 0 (length (columns fs))) in
  {| index := (fun p => (symbol, p)) <$> index fs;
     columns := filter (fun c => c ≠ "Ticker") (columns fs);
     values := (fun row => cell row <$> keep) <$> values fs |}.

(** The combined table after [reset_index()]: the two index levels are
    ordinary columns ([Period_column] is the flattened period level), the
    line items are the remaining columns. *)
Record DataFrame : Type := {
  Ticker : list string;
  Period_column : list Period;
  line_items : list string;
  cells : list (list float)
}.

Definition reset_index (f : frame (string * Period) string) : DataFrame :=
  {| Ticker := fst <$> index f;
     Period_column := snd <$> index f;
     line_items := columns f;
     cells := values f |}.

(** ** Statement assembler *)

(** What [yf.Ticker(symbol)] gives: the three statement tables. *)
Record statements : Type := {
  financials : frame string Period;
  balancesheet : frame string Period;
  cashflow : frame string Period
}.

Definition provider : Type := string -> statements.

(** The body of the loop of [fetch_fundamental_data]. *)
Definition assemble (yf : provider) (symbol : string)
  : result (frame (string * Period) string) :=
  let ticker := yf symbol in
  let pnl := financials ticker in
  let bs := balancesheet ticker in
  let cf := cashflow ticker in
  fs ← pd_concat [pnl; bs; cf];
  let fs := transpose fs in
  Ok (set_index_Ticker symbol fs).

Definition fetch_fundamental_data (yf : provider) (tickers : list string) : result DataFrame :=
  data ← mapM (assemble yf) tickers;
  final_df ← pd_concat data;
  Ok (reset_index final_df).

(** ** Growth screen *)

(** [df[label]] for a line item of a table whose column labels are
    distinct: the column under the label.  Under a repeated label pandas
    gives a table in place of a column and the screen cannot combine it with
    its other columns; this function then takes the first of the columns,
    and what is proved of a mask that the screen returns is proved for
    distinct labels, or on the condition that the screen returned. *)
Definition getitem (df : DataFrame) (label : string) : result (list float) :=
  match position label (line_items df) with
  | Some j => Ok ((fun row => cell row j) <$> cells df)
  | None => Raise (KeyError label)
  end.

(** [s.shift(1)] *)
Definition shift (s : list float) : list float := take (length s) (nan :: s).

(** Element-wise operators of pandas on columns of one frame. *)
Definition series_gt (a b : list float) : list bool := zip_with (fun x y => PrimFloat.ltb y x) a b.
Definition series_lt (a b : list float) : list bool := zip_with PrimFloat.ltb a b.
Definition series_div (a b : list float) : list float := zip_with PrimFloat.div a b.
Definition series_gt_scalar (a : list float) (c : float) : list bool := (fun x => PrimFloat.ltb c x) <$> a.
Definition series_lt_scalar (a : list float) (c : float) : list bool := (fun x => PrimFloat.ltb x c) <$> a.
Definition scalar_mul (c : float) (a : list float) : list float := PrimFloat.mul c <$> a.
Definition series_and (a b : list bool) : list bool := zip_with andb a b.

Infix "&ₛ" := series_and (at level 40, left associativity).

Definition get_growth_filter (df : DataFrame) : result (list bool) :=
  total_revenue ← getitem df "Total Revenue";
  operating_income ← getitem df "Operating Income";
  ebitda ← getitem df "EBITDA";
  diluted_eps ← getitem df "Diluted EPS";
  net_debt ← getitem df "Net Debt";
  stockholders_equity ← getitem df "Stockholders Equity";
  interest_expense ← getitem df "Interest Expense";
  free_cash_flow ← getitem df "Free Cash Flow";
  net_income ← getitem df "Net Income";
  sga ← getitem df "Selling General And Administration";
  capital_expenditure ← getitem df "Capital Expenditure";
  Ok (series_gt total_revenue (shift total_revenue)
      &ₛ series_gt_scalar (series_div operating_income total_revenue) 0.10
      &ₛ series_gt_scalar (series_div ebitda total_revenue) 0.10
      &ₛ series_gt diluted_eps (shift diluted_eps)
      &ₛ series_lt_scalar (series_div net_debt stockholders_equity) 1
      &ₛ series_lt interest_expense (scalar_mul 0.1 operating_income)
      &ₛ series_gt_scalar free_cash_flow 0
      &ₛ series_gt_scalar (series_div net_income stockholders_equity) 0.15
      &ₛ series_lt_scalar (series_div sga total_revenue) 0.2
      &ₛ series_lt_scalar (series_div capital_expenditure total_revenue) 0.2).

(** [col[mask]]: the entries of a column at the rows the mask keeps. *)
Definition boolean_index {A} (col : list A) (mask : list bool) : list A :=
  fst <$> filter (fun p => p.2 = true) (zip col mask).

(** [final_df[growth_filter]['Ticker'].unique()] *)
Definition selected_tickers (final_df : DataFrame) : result (list string) :=
  growth_filter ← get_growth_filter final_df;
  Ok (unique (boolean_index (Ticker final_df) growth_filter)).

(** ** Python numbers for the weights *)

(** An integer as an exact (unrounded) binary floating-point datum. *)
Definition Z2SF (z : Z) : spec_float :=
  match z with
  | Z0 => S754_zero false
  | Zpos p => S754_finite false p 0
  | Zneg p => S754_finite true p 0
  end.

(** The least magnitude that rounds to an infinity in binary64. *)
Definition overflow_threshold : Z := 2 ^ 1024 - 2 ^ 970.

(** [a / b] on Python integers: the binary64 nearest to the exact quotient. *)
Definition int_truediv (a b : Z) : result float :=
  if b =? 0 then Raise ZeroDivisionError
  else if overflow_threshold * Z.abs b <=? Z.abs a then Raise OverflowError
  else Ok (SF2Prim (SFdiv prec emax (Z2SF a) (Z2SF b))).

(** The integer nearest to [num / den] for [0 <= num] and [0 < den], ties
    to the even one. *)
Definition round_half_even (num den : Z) : Z :=
  let q := num / den in
  let r := num mod den in
  match 2 * r ?= den with
  | Lt => q
  | Gt => q + 1
  | Eq => if Z.even q then q else q + 1
  end.

(** [round(x, 2)] on a float: the exact value of [x] is rounded to the
    nearest multiple of 1/100, ties to even, and that decimal is read back
    as the nearest binary64; infinities and NaN round to themselves. *)
Definition py_round2 (x : float) : float :=
  match Prim2SF x with
  | S754_finite s m e =>
      let hundredths :=
        if 0 <=? e then Zpos m * 2 ^ e * 100
        else round_half_even (Zpos m * 100) (2 ^ (- e)) in
      let decimal :=
        match hundredths with
        | Zpos p => S754_finite s p 0
        | _ => S754_zero s
        end in
      SF2Prim (SFdiv prec emax decimal (Z2SF 100))
  | _ => x
  end.

(** ** Weight calculator *)

(** A Python dict keeps its keys in insertion order; assigning to a key
    that is present keeps its place. *)
Fixpoint dict_set {V} (k : string) (v : V) (d : list (string * V)) : list (string * V) :=
  match d with
  | [] => [(k, v)]
  | (k', v') :: d' => if decide (k' = k) then (k, v) :: d' else (k', v') :: dict_set k v d'
  end.

(** [stock.info.get('marketCap')] for each symbol: an integer, or [None]. *)
Definition market_data : Type := string -> option Z.

(** The loop that fills [market_caps]: [if market_cap:] is false for [None]
    and for 0. *)
Definition collect_market_caps (info : market_data) (tickers : list string)
  : list (string * Z) :=
  foldl (fun market_caps ticker =>
           match info ticker with
           | Some market_cap =>
               if market_cap =? 0 then market_caps
               else dict_set ticker market_cap market_caps
           | None => market_caps
           end) [] tickers.

(** [sum(market_caps.values())] *)
Definition total_market_cap (market_caps : list (string * Z)) : Z :=
  foldr Z.add 0 (snd <$> market_caps).

Definition calculate_market_cap_weights (info : market_data) (tickers : list string)
  : result (list (string * float)) :=
  let market_caps := collect_market_caps info tickers in
  let total_market_cap := total_market_cap market_caps in
  mapM (fun '(ticker, cap) =>
          q ← int_truediv cap total_market_cap;
          Ok (ticker, py_round2 (q * 100)%float))
       market_caps.

(** *** The weights as the specification words them *)

(** The market cap of a ticker when it is available: reported and not 0. *)
Definition available (info : market_data) (ticker : string) : option Z :=
  match info ticker with
  | Some market_cap => if market_cap =? 0 then None else Some market_cap
  | None => None
  end.

(** The included tickers, each once, in the order of their first
    appearance, with their market caps. *)
Definition included (info : market_data) (tickers : list string) : list (string * Z) :=
  omap (fun ticker => pair ticker <$> available info ticker) (unique tickers).

(** 100 x cap / total rounded to two decimals, in binary64 arithmetic with
    the operations in the order the script applies them. *)
Definition weight (cap total : Z) : float :=
  py_round2 (SF2Prim (SFdiv prec emax (Z2SF cap) (Z2SF total)) * 100)%float.

(** *** Rounding, as the specification and as the arithmetic have it *)

(** [n] is the integer nearest to [num / den], for [0 < den]: the even one
    of the two when [num / den] lies half-way between them. *)
Definition nearest_even (num den n : Z) : Prop :=
  2 * Z.abs (num - n * den) <= den /\
  (2 * Z.abs (num - n * den) = den -> Z.even n = true).

(** [n] hundredths under the sign [s]: the binary64 nearest to [n / 100]. *)
Definition hundredths (s : bool) (n : Z) : float :=
  SF2Prim (SFdiv prec emax
             (match n with Zpos p => S754_finite s p 0 | _ => S754_zero s end)
             (Z2SF 100)).

(** [w] is the float [x] rounded to two decimals: the whole number of
    hundredths nearest to the exact value of [x], the even one on a tie;
    a zero, an infinity and NaN are kept. *)
Definition rounded_to_two_decimals (x w : float) : Prop :=
  match Prim2SF x with
  | S754_finite s m e =>
      exists n,
        nearest_even (100 * Zpos m * 2 ^ Z.max e 0) (2 ^ Z.max (- e) 0) n /\
        w = hundredths s n
  | _ => w = x
  end.

(** The weight in the words of the specification: 100 x cap / total rounded
    to two decimal places, that is [n] hundredths for an integer [n]
    nearest to 10000 x cap / total. *)
Definition exact_share (cap total : Z) (w : float) : Prop :=
  exists n, 2 * Z.abs (10000 * cap - n * total) <= total /\ w = hundredths false n.

(** The weight as binary64 arithmetic gives it: the quotient is rounded to
    binary64, its product with 100 is rounded to binary64, and that float
    is rounded to two decimals. *)
Definition binary64_share (cap total : Z) (w : float) : Prop :=
  rounded_to_two_decimals
    (SF2Prim (SFdiv prec emax (Z2SF cap) (Z2SF total)) * 100)%float w.

(** ** The script's top level

    The price download between the universe and the statements returns a
    table that the script does not use; it is left out. *)

Definition weights (w : web) (yf : provider) (info : market_data)
  : result (list (string * float)) :=
  tickers ← tickers w;
  final_df ← fetch_fundamental_data yf tickers;
  selected_tickers ← selected_tickers final_df;
  calculate_market_cap_weights info selected_tickers.

(** ** The screen read row by row *)

(** The line items [get_growth_filter] reads, in the order it reads them. *)
Definition screen_columns : list string :=
  ["Total Revenue"; "Operating Income"; "EBITDA"; "Diluted EPS"; "Net Debt";
   "Stockholders Equity"; "Interest Expense"; "Free Cash Flow"; "Net Income";
   "Selling General And Administration"; "Capital Expenditure"].

(** The side of its threshold on which a ratio has to be. *)
Inductive side : Type := Above | Below.

Definition opposite (sd : side) : side :=
  match sd with
  | Above => Below
  | Below => Above
  end.

(** Numerator, denominator and side of the six ratio criteria. *)
Definition ratio_criteria : list (string * string * side) :=
  [("Operating Income", "Total Revenue", Above);
   ("EBITDA", "Total Revenue", Above);
   ("Net Debt", "Stockholders Equity", Below);
   ("Net Income", "Stockholders Equity", Above);
   ("Selling General And Administration", "Total Revenue", Below);
   ("Capital Expenditure", "Total Revenue", Below)].

(** The infinity that lies on the given side of every threshold. *)
Definition infinity_on (sd : side) : float :=
  match sd with
  | Above => infinity
  | Below => neg_infinity
  end.

(** What [df[label]] holds at row [i], and what [df[label].shift(1)] holds
    there. *)
Definition value_at (df : DataFrame) (i : nat) (label : string) : float :=
  match getitem df label with
  | Ok col => default nan (col !! i)
  | Raise _ => nan
  end.

Definition prior_value_at (df : DataFrame) (i : nat) (label : string) : float :=
  match getitem df label with
  | Ok col => default nan (shift col !! i)
  | Raise _ => nan
  end.

(** The ten criteria on the values of one row and the values the row is
    compared with. *)
Definition all_ten_criteria (cur prior : string -> float) : bool :=
  (PrimFloat.ltb (prior "Total Revenue") (cur "Total Revenue")
   && PrimFloat.ltb 0.10 (cur "Operating Income" / cur "Total Revenue")
   && PrimFloat.ltb 0.10 (cur "EBITDA" / cur "Total Revenue")
   && PrimFloat.ltb (prior "Diluted EPS") (cur "Diluted EPS")
   && PrimFloat.ltb (cur "Net Debt" / cur "Stockholders Equity") 1
   && PrimFloat.ltb (cur "Interest Expense") (0.1 * cur "Operating Income")
   && PrimFloat.ltb 0 (cur "Free Cash Flow")
   && PrimFloat.ltb 0.15 (cur "Net Income" / cur "Stockholders Equity")
   && PrimFloat.ltb (cur "Selling General And Administration" / cur "Total Revenue") 0.2
   && PrimFloat.ltb (cur "Capital Expenditure" / cur "Total Revenue") 0.2)%float.

(** A zero of either sign. *)
Definition is_zero (x : float) : bool := PrimFloat.eqb x 0.

(** ** Tables for the worked cases *)

(** A long-form table with the screen's eleven columns, from its rows. *)
Definition long_table (rows : list (string * Period * list float)) : DataFrame :=
  {| Ticker := (fun r => r.1.1) <$> rows;
     Period_column := (fun r => r.1.2) <$> rows;
     line_items := screen_columns;
     cells := snd <$> rows |}.

(** Ticker A with two periods (revenue 100, then the given one) followed by
    ticker B with a single period (revenue 500).  The cells of a row follow
    [screen_columns]. *)
Definition two_tickers (revenue_A_P2 : float) : DataFrame :=
  long_table
    [ ("A", "P1", [100; 20; 25; 1; 0; 100; 1; 10; 20; 10; 5]%float);
      ("A", "P2", [revenue_A_P2; 30; 40; 2; 0; 100; 1; 10; 20; 10; 5]%float);
      ("B", "P1", [500; 100; 120; 3; 0; 1000; 5; 50; 200; 50; 20]%float) ].

(** Ticker B of [two_tickers] on its own. *)
Definition ticker_B_alone : DataFrame :=
  long_table [ ("B", "P1", [500; 100; 120; 3; 0; 1000; 5; 50; 200; 50; 20]%float) ].

(** One ticker whose second period has Stockholders Equity 0, a net cash
    position (Net Debt -1) and a positive Net Income. *)
Definition zero_equity : DataFrame :=
  long_table
    [ ("A", "P1", [100; 20; 25; 1; 0; 100; 1; 10; 20; 10; 5]%float);
      ("A", "P2", [150; 30; 40; 2; -1; 0; 1; 10; 20; 10; 5]%float) ].

(** A table with the first two of the line items the screen reads. *)
Definition margins_only : DataFrame :=
  {| Ticker := ["A"];
     Period_column := ["P1"];
     line_items := ["Total Revenue"; "Operating Income"];
     cells := [[100; 20]%float] |}.

(** One ticker whose second period has no Operating Income. *)
Definition null_operating_income : DataFrame :=
  long_table
    [ ("A", "P1", [100; 20; 25; 1; 0; 100; 1; 10; 20; 10; 5]%float);
      ("A", "P2", [150; nan; 40; 2; 0; 100; 1; 10; 20; 10; 5]%float) ].

(** ** Sources for the worked cases *)

(** A symbol occurs in one of the source lists. *)
Definition listed (lists : list (list string)) (s : string) : Prop :=
  exists l, l ∈ lists /\ s ∈ l.

(** Two source symbols that the normalisation sends to one symbol. *)
Definition clash (lists : list (list string)) : Prop :=
  (listed lists "BRK.B" /\ listed lists "BRK-B") \/
  (listed lists "BF.B" /\ listed lists "BF-B").

(** A page on which every query finds the one table. *)
Definition page_with (table : html_table) : page :=
  {| find_table_by_id := fun _ => Some table;
     find_table_by_class := fun _ => Some table;
     find_all_tables_by_class := fun _ => [table] |}.

Definition sp500_page : page :=
  page_with [ {| tr_text := "Symbol Security"; tds := [] |};
              {| tr_text := "AAPL Apple Inc."; tds := [["AAPL "]; ["Apple Inc."]] |};
              {| tr_text := "BRK.B Berkshire Hathaway"; tds := [["BRK.B"]; ["Berkshire Hathaway"]] |} ].

Definition dow_jones_page : page :=
  page_with [ {| tr_text := "Company Exchange Symbol"; tds := [] |};
              {| tr_text := "Apple NASDAQ AAPL"; tds := [["NASDAQ"]; ["AAPL"]] |};
              {| tr_text := "Boeing NYSE BA"; tds := [["NYSE"]; ["BA"]] |} ].

Definition nasdaq_100_page : page :=
  page_with [ {| tr_text := "Company Symbol"; tds := [] |};
              {| tr_text := "Apple Inc. AAPL"; tds := [["Apple Inc."]; ["AAPL"]] |};
              {| tr_text := "Microsoft MSFT"; tds := [["Microsoft"]; ["MSFT"]] |} ].

(** The web with the three pages, each source answering as given ([None]:
    the request fails). *)
Definition web_of (sp500 dow_jones nasdaq_100 : option response) : web :=
  fun url =>
    if String.eqb url sp500_url then sp500
    else if String.eqb url dow_jones_url then dow_jones
    else if String.eqb url nasdaq_100_url then nasdaq_100
    else None.

Definition ok_response (p : page) : option response :=
  Some {| status_code := 200; soup := p |}.

Definition web_all_up : web :=
  web_of (ok_response sp500_page) (ok_response dow_jones_page) (ok_response nasdaq_100_page).

Definition web_sp500_down : web :=
  web_of None (ok_response dow_jones_page) (ok_response nasdaq_100_page).

Definition web_sp500_unavailable : web :=
  web_of (Some {| status_code := 503; soup := sp500_page |})
         (ok_response dow_jones_page) (ok_response nasdaq_100_page).

Definition web_dow_jones_down : web :=
  web_of (ok_response sp500_page) None (ok_response nasdaq_100_page).

Definition web_nasdaq_100_down : web :=
  web_of (ok_response sp500_page) (ok_response dow_jones_page) None.

(** ** Market data for the worked cases *)

(** Market caps A: 100 and B: 300; C reports 0 and every other symbol
    reports nothing. *)
Definition caps_A_B : market_data :=
  fun ticker =>
    if String.eqb ticker "A" then Some 100
    else if String.eqb ticker "B" then Some 300
    else if String.eqb ticker "C" then Some 0
    else None.

(** Two market caps whose shares, 62.19499... and 37.80500... per cent, are
    next to a tie of the rounding to two decimals. *)
Definition caps_next_to_tie : market_data :=
  fun ticker =>
    if String.eqb ticker "A" then Some 2646007032325
    else if String.eqb ticker "B" then Some 1608365557634
    else None.

(** ** A provider for the worked case of the assembler *)

Definition empty_statement : frame string Period :=
  {| index := []; columns := []; values := [] |}.

(** Every symbol has one reporting period, with Total Revenue 100 and
    Operating Income 20 in its income statement. *)
Definition one_period_provider : provider :=
  fun _ =>
    {| financials :=
         {| index := ["Total Revenue"; "Operating Income"];
            columns := ["2023-12-31"];
            values := [[100]; [20]]%float |};
       balancesheet := empty_statement;
       cashflow := empty_statement |}.

(** ** Further definitions: pages for the worked cases of the sources *)

(** A Dow Jones page one of whose rows has a single cell. *)
Definition dow_jones_page_short_row : page :=
  page_with [ {| tr_text := "Company Exchange Symbol"; tds := [] |};
              {| tr_text := "Apple NASDAQ AAPL"; tds := [["NASDAQ"]; ["AAPL"]] |};
              {| tr_text := "Notes"; tds := [["Notes"]] |};
              {| tr_text := "Boeing NYSE BA"; tds := [["NYSE"]; ["BA"]] |} ].

(** A Dow Jones page whose symbol cells hold a link, a space and a footnote
    mark, the space being a no-break space in the second row. *)
Definition dow_jones_page_footnotes : page :=
  page_with [ {| tr_text := "Company Exchange Symbol"; tds := [] |};
              {| tr_text := "Apple NASDAQ AAPL [1]";
                 tds := [["NASDAQ"]; ["AAPL"; " "; "[1]"]] |};
              {| tr_text := "Boeing NYSE BA";
                 tds := [["NYSE"]; [" BA"; utf8 0xA0; "[2]"]] |} ].

(** An S&P 500 page whose first cells end with a newline or a no-break
    space. *)
Definition sp500_page_padded : page :=
  page_with [ {| tr_text := "Symbol Security"; tds := [] |};
              {| tr_text := "AAPL Apple Inc.";
                 tds := [["AAPL"; String (ascii_of_N 10) ""]; ["Apple Inc."]] |};
              {| tr_text := "MSFT Microsoft"; tds := [["MSFT" ++ utf8 0xA0]; ["Microsoft"]] |} ].

(** An S&P 500 page one of whose rows has no cell. *)
Definition sp500_page_empty_row : page :=
  page_with [ {| tr_text := "Symbol Security"; tds := [] |};
              {| tr_text := "AAPL Apple Inc."; tds := [["AAPL"]; ["Apple Inc."]] |};
              {| tr_text := "Symbol Security"; tds := [] |} ].

(** A page without any table. *)
Definition page_without_table : page :=
  {| find_table_by_id := fun _ => None;
     find_table_by_class := fun _ => None;
     find_all_tables_by_class := fun _ => [] |}.


(** A table whose first row mentions 'Symbol'. *)
Definition mentions_Symbol (table : html_table) : Prop :=
  exists headers, head table = Some headers /\ str_contains "Symbol" (tr_text headers) = true.

(** The text of the second cell of every row that has one, stripped. *)
Definition second_cells (rows : list tr) : list string :=
  omap (fun row => strip <$> td_texts row !! 1%nat) rows.

(** [get_text(strip=True)] of the second cell of every row that has one. *)
Definition second_cells_get_text (rows : list tr) : list string :=
  omap (fun row => get_text_strip <$> tds row !! 1%nat) rows.


(** ** Common info keys *)

(** The error of a built-in called without the argument it needs. *)
Inductive builtin_error : Type := TypeError.

(** [set(yf.Ticker(ticker).info.keys())] for each symbol. *)
Definition info_keys : Type := string -> gset string.

(** [set.intersection] applied to the key sets: the first set intersected
    with the others; without any set the call lacks its first argument. *)
Definition common_info_keys (keys : info_keys) (tickers : list string)
  : builtin_error + gset string :=
  let key_sets := keys <$> tickers in
  match key_sets with
  | [] => inl TypeError
  | first :: others => inr (foldl (∩) first others)
  end.

(** Keys for the worked case: A and B share one key. *)
Definition keys_A_B : info_keys :=
  fun ticker =>
    if String.eqb ticker "A" then {[ "marketCap"; "sector" ]}
    else if String.eqb ticker "B" then {[ "marketCap"; "beta" ]}
    else ∅.


(** ** The assembled table, as the provider's data determine it *)

Definition statement_frames (st : statements) : list (frame string Period) :=
  [financials st; balancesheet st; cashflow st].

(** The reporting periods of a ticker: the columns of its three statement
    tables, each once, in the order of their first appearance. *)
Definition reporting_periods (st : statements) : list Period :=
  unique (concat (columns <$> statement_frames st)).

(** The line items of a ticker: the row labels of its three statement
    tables, one after the other. *)
Definition statement_labels (st : statements) : list string :=
  concat (index <$> statement_frames st).

(** The (ticker, period) pairs of the rows of the table: the periods of a
    ticker nested inside the ticker, the tickers in the order given. *)
Definition row_keys (yf : provider) (tickers : list string) : list (string * Period) :=
  ticker ← tickers; pair ticker <$> reporting_periods (yf ticker).

(** What the loop body of [fetch_fundamental_data] appends for a symbol. *)
Definition ticker_frame (yf : provider) (symbol : string) : frame (string * Period) string :=
  let frames := statement_frames (yf symbol) in
  let periods := reporting_periods (yf symbol) in
  set_index_Ticker symbol
    (transpose {| index := statement_labels (yf symbol);
                  columns := periods;
                  values := concat ((fun f => reindex_row (columns f) periods <$> values f)
                                      <$> frames) |}).


(** The provider's tables for the listed tickers are statement tables, and
    no ticker has a line item twice. *)
Definition statement_tables (yf : provider) (tickers : list string) : Prop :=
  Forall (fun t => Forall statement_table (statement_frames (yf t)) /\
                   NoDup (statement_labels (yf t))) tickers.

(** What the provider reports for a line item of a ticker in a period: the
    cell of the statement table that has the line item, NaN when no table
    has it or when that table lacks the period. *)
Definition statement_value (st : statements) (label : string) (p : Period) : float :=
  match list_find (fun f => label ∈ index f) (statement_frames st) with
  | Some (_, f) => default nan (frame_cell f label p)
  | None => nan
  end.

(** Income statement and cash flow statement of different periods: revenue
    for 2023 and 2022, free cash flow for 2023 only. *)
Definition two_period_provider : provider :=
  fun _ =>
    {| financials :=
         {| index := ["Total Revenue"];
            columns := ["2023-12-31"; "2022-12-31"];
            values := [[100; 90]]%float |};
       balancesheet := empty_statement;
       cashflow :=
         {| index := ["Free Cash Flow"];
            columns := ["2023-12-31"];
            values := [[7]]%float |} |}.


(** ** Inputs for the worked cases of the whole script *)

(** The three pages with tables that have a header row and nothing else. *)
Definition web_no_symbols : web :=
  let empty_page := page_with [ {| tr_text := "Symbol"; tds := [] |} ] in
  web_of (ok_response empty_page) (ok_response empty_page) (ok_response empty_page).

(** Every symbol has two reporting periods, the eleven line items of the
    screen spread over its three statements, and figures that grow from the
    first period to the second. *)
Definition growing_provider : provider :=
  fun _ =>
    {| financials :=
         {| index := ["Total Revenue"; "Operating Income"; "EBITDA"; "Diluted EPS";
                      "Interest Expense"; "Net Income";
                      "Selling General And Administration"];
            columns := ["2022-12-31"; "2023-12-31"];
            values := [[100; 150]; [20; 30]; [25; 40]; [1; 2]; [1; 1]; [20; 20];
                       [10; 10]]%float |};
       balancesheet :=
         {| index := ["Net Debt"; "Stockholders Equity"];
            columns := ["2022-12-31"; "2023-12-31"];
            values := [[0; 0]; [100; 100]]%float |};
       cashflow :=
         {| index := ["Free Cash Flow"; "Capital Expenditure"];
            columns := ["2022-12-31"; "2023-12-31"];
            values := [[10; 10]; [5; 5]]%float |} |}.

(** Market caps AAPL: 3000 and MSFT: 1000; no other symbol reports one. *)
Definition caps_AAPL_MSFT : market_data :=
  fun ticker =>
    if String.eqb ticker "AAPL" then Some 3000
    else if String.eqb ticker "MSFT" then Some 1000
    else None.

(** * Proofs *)

(** ** Binary64 facts used by the screen *)

Lemma Prim2SF_nan : Prim2SF nan = S754_nan.
Proof. reflexivity. Qed.

Lemma ltb_nan_l y : PrimFloat.ltb nan y = false.
Proof. rewrite ltb_spec, Prim2SF_nan. reflexivity. Qed.

Lemma ltb_nan_r x : PrimFloat.ltb x nan = false.
Proof. rewrite ltb_spec, Prim2SF_nan. unfold SFltb. by destruct (Prim2SF x). Qed.

Lemma div_nan_l y : (nan / y)%float = nan.
Proof. apply Prim2SF_inj. rewrite div_spec, Prim2SF_nan. reflexivity. Qed.

Lemma div_nan_r x : (x / nan)%float = nan.
Proof. apply Prim2SF_inj. rewrite div_spec, Prim2SF_nan. by destruct (Prim2SF x). Qed.

Lemma is_zero_spec x : is_zero x = true -> exists s, Prim2SF x = S754_zero s.
Proof.
  unfold is_zero. rewrite FloatAxioms.eqb_spec.
  change (Prim2SF 0) with (S754_zero false).
  destruct (Prim2SF x) as [s|s| |s m e]; try discriminate; eauto;
    unfold SFeqb; simpl; destruct s; discriminate.
Qed.

Lemma div_zero_zero x y : is_zero x = true -> is_zero y = true -> (x / y)%float = nan.
Proof.
  intros [sx Hx]%is_zero_spec [sy Hy]%is_zero_spec.
  apply Prim2SF_inj. rewrite div_spec, Hx, Hy. reflexivity.
Qed.

(** A quotient with a missing operand, or of two zeros, is NaN. *)
Lemma undefined_ratio x y :
  x = nan \/ y = nan \/ (is_zero x = true /\ is_zero y = true) -> (x / y)%float = nan.
Proof.
  intros [-> | [-> | [Hx Hy]]];
    auto using div_nan_l, div_nan_r, div_zero_zero.
Qed.

(** A quotient by zero is NaN or an infinity. *)
Lemma div_by_zero x y :
  is_zero y = true ->
  (x / y)%float = nan \/ (x / y)%float = infinity \/ (x / y)%float = neg_infinity.
Proof.
  intros [sy Hy]%is_zero_spec.
  assert (Prim2SF (x / y) = S754_nan \/ exists b, Prim2SF (x / y) = S754_infinity b) as H.
  { rewrite div_spec, Hy. destruct (Prim2SF x); simpl; eauto. }
  destruct H as [H|[[] H]]; [left|right; right|right; left];
    apply Prim2SF_inj; by rewrite H.
Qed.

(** A ratio criterion whose quotient is NaN, or the infinity on the wrong
    side of the threshold, fails, and with it the row. *)
Lemma ratio_off_side_fails cur prior num den sd :
  (num, den, sd) ∈ ratio_criteria ->
  (cur num / cur den)%float = nan \/
    (cur num / cur den)%float = infinity_on (opposite sd) ->
  all_ten_criteria cur prior = false.
Proof.
  unfold ratio_criteria, all_ten_criteria. intros Hin Hq.
  repeat (apply elem_of_cons in Hin as [[= -> -> ->] | Hin];
          [ destruct Hq as [-> | ->]; rewrite ?ltb_nan_l, ?ltb_nan_r;
            [by rewrite ?andb_false_r|]; simpl infinity_on;
            first [ change (PrimFloat.ltb 0.10 neg_infinity) with false
                  | change (PrimFloat.ltb 0.15 neg_infinity) with false
                  | change (PrimFloat.ltb infinity 1) with false
                  | change (PrimFloat.ltb infinity 0.2) with false ];
            by rewrite ?andb_false_r
          | ]).
  by apply elem_of_nil in Hin.
Qed.

(** ** Python's numbers on known values *)

Example int_truediv_third : int_truediv 1 3 = Ok 0.33333333333333331%float.
Proof. vm_compute. reflexivity. Qed.

Example int_truediv_by_zero : int_truediv 5 0 = Raise ZeroDivisionError.
Proof. reflexivity. Qed.

Example int_truediv_large : int_truediv (10 ^ 400) (10 ^ 399) = Ok 10%float.
Proof. vm_compute. reflexivity. Qed.

(** 2.675 is stored below the tie and goes down; 0.125 and 0.375 are exact
    ties and go to the even neighbour. *)
Example py_round2_values :
  py_round2 2.675 = 2.67%float /\ py_round2 0.125 = 0.12%float /\
  py_round2 0.375 = 0.38%float /\ py_round2 25 = 25%float.
Proof. repeat split; vm_compute; reflexivity. Qed.

Lemma round_half_even_nearest num den :
  0 < den -> nearest_even num den (round_half_even num den).
Proof.
  intros Hden. unfold nearest_even, round_half_even.
  pose proof (Z.div_mod num den ltac:(lia)) as Hdiv.
  pose proof (Z.mod_pos_bound num den Hden) as Hmod.
  set (q := num / den) in *. set (r := num mod den) in *.
  destruct (Z.compare_spec (2 * r) den) as [Htie|Hlow|Hhigh].
  - destruct (Z.even q) eqn:Hq.
    + split; [|done]. replace (num - q * den) with r by lia. lia.
    + split; [replace (num - (q + 1) * den) with (r - den) by lia; lia|].
      intros _. rewrite Z.even_add, Hq. reflexivity.
  - replace (num - q * den) with r by lia. split; lia.
  - replace (num - (q + 1) * den) with (r - den) by lia. split; lia.
Qed.

(** [round(x, 2)] gives the hundredths nearest to the exact value of the
    float, ties to even. *)
Lemma py_round2_spec x : rounded_to_two_decimals x (py_round2 x).
Proof.
  unfold rounded_to_two_decimals, py_round2, hundredths.
  destruct (Prim2SF x) as [s|s| |s m e]; try reflexivity.
  destruct (Z.leb_spec 0 e) as [He|He].
  - exists (Zpos m * 2 ^ e * 100). split; [|reflexivity].
    rewrite Z.max_l, Z.max_r by lia. unfold nearest_even.
    replace (100 * Z.pos m * 2 ^ e - Z.pos m * 2 ^ e * 100 * 2 ^ 0) with 0 by (simpl; lia).
    simpl. split; lia.
  - exists (round_half_even (Zpos m * 100) (2 ^ (- e))). split; [|reflexivity].
    rewrite Z.max_r, Z.max_l by lia.
    replace (100 * Z.pos m * 2 ^ 0) with (Z.pos m * 100) by (simpl; lia).
    apply round_half_even_nearest. apply Z.pow_pos_nonneg; lia.
Qed.

Example weight_values :
  weight 100 400 = 25%float /\ weight 300 400 = 75%float /\
  weight 1 3 = 33.33%float /\ weight 2 3 = 66.67%float.
Proof. repeat split; vm_compute; reflexivity. Qed.

Example strip_cell : strip "  BRK.B
" = "BRK.B".
Proof. reflexivity. Qed.

Example strip_no_break_space :
  strip (utf8 0x2003 ++ "AAPL" ++ utf8 0xA0) = "AAPL" /\
  fetch_sp500_tickers (web_of (ok_response sp500_page_padded) None None)
    = Ok ["AAPL"; "MSFT"].
Proof. split; vm_compute; reflexivity. Qed.

(** ** Labels, columns and their lookups *)

Lemma position_Some `{EqDecision A} (x : A) l :
  x ∈ l -> exists j, position x l = Some j /\ l !! j = Some x.
Proof.
  intros Hx. unfold position.
  destruct (list_find (fun y => y = x) l) as [[j y]|] eqn:E.
  - apply list_find_Some in E as (Hj & -> & _). eauto.
  - apply list_find_None in E. rewrite Forall_forall in E. by destruct (E x Hx).
Qed.

Lemma position_None `{EqDecision A} (x : A) l : position x l = None -> x ∉ l.
Proof.
  unfold position. intros E Hx.
  destruct (position_Some x l Hx) as (j & Hj & _). unfold position in Hj. congruence.
Qed.

Lemma unique_foldl `{EqDecision A} (l seen : list A) :
  NoDup seen ->
  let r := foldl (fun seen x => if decide (x ∈ seen) then seen else seen ++ [x])%list seen l in
  NoDup r /\ forall x, x ∈ r <-> x ∈ seen \/ x ∈ l.
Proof.
  revert seen. induction l as [|y l IH]; intros seen Hnd; simpl.
  - split; [done|]. set_solver.
  - destruct (decide (y ∈ seen)) as [Hy|Hy].
    + destruct (IH seen Hnd) as [? Hin]. split; [done|].
      intros x. rewrite Hin. set_solver.
    + destruct (IH (seen ++ [y])%list) as [? Hin].
      { apply NoDup_app. split; [done|]. split; [set_solver|]. apply NoDup_singleton. }
      split; [done|]. intros x. rewrite Hin. set_solver.
Qed.

Lemma NoDup_unique `{EqDecision A} (l : list A) : NoDup (unique l).
Proof. apply (unique_foldl l []). constructor. Qed.

Lemma elem_of_unique `{EqDecision A} (l : list A) x : x ∈ unique l <-> x ∈ l.
Proof.
  destruct (unique_foldl l [] (NoDup_nil_2)) as [_ H].
  unfold unique. rewrite H. set_solver.
Qed.

Lemma unique_snoc `{EqDecision A} (l : list A) x :
  unique (l ++ [x]) = if decide (x ∈ l) then unique l else (unique l ++ [x])%list.
Proof.
  unfold unique at 1. rewrite foldl_app. simpl. fold (unique l).
  destruct (decide (x ∈ unique l)) as [Hx|Hx]; rewrite elem_of_unique in Hx;
    by destruct (decide (x ∈ l)).
Qed.

Lemma getitem_present df label :
  label ∈ line_items df ->
  exists col, getitem df label = Ok col /\ length col = length (cells df).
Proof.
  intros (j & Hj & _)%position_Some. unfold getitem. rewrite Hj.
  eexists; split; [done|]. by rewrite length_fmap.
Qed.

Lemma getitem_raises df label e :
  getitem df label = Raise e -> e = KeyError label /\ label ∉ line_items df.
Proof.
  unfold getitem. destruct (position label (line_items df)) eqn:E; [done|].
  intros [= <-]. split; [done|]. by apply position_None.
Qed.

Lemma length_shift s : length (shift s) = length s.
Proof. unfold shift. rewrite length_take. simpl. lia. Qed.

Lemma shift_lookup_0 s : s <> [] -> shift s !! 0%nat = Some nan.
Proof. destruct s; [done|]. reflexivity. Qed.

Lemma shift_lookup_S s i : (S i < length s)%nat -> shift s !! S i = s !! i.
Proof. intros Hi. unfold shift. by rewrite lookup_take_lt. Qed.

Lemma lookup_default (s : list float) i :
  (i < length s)%nat -> s !! i = Some (default nan (s !! i)).
Proof. intros [x Hx]%lookup_lt_is_Some_2. by rewrite Hx. Qed.

Lemma value_at_col df label col i :
  getitem df label = Ok col -> value_at df i label = default nan (col !! i).
Proof. intros E. unfold value_at. by rewrite E. Qed.

Lemma prior_value_at_col df label col i :
  getitem df label = Ok col -> prior_value_at df i label = default nan (shift col !! i).
Proof. intros E. unfold prior_value_at. by rewrite E. Qed.

Lemma elem_of_boolean_index {A} (col : list A) mask x :
  x ∈ boolean_index col mask <-> exists i, col !! i = Some x /\ mask !! i = Some true.
Proof.
  unfold boolean_index. rewrite list_elem_of_fmap. split.
  - intros ([y b] & -> & [Hb Hin]%list_elem_of_filter). simpl in *. subst b.
    apply list_elem_of_lookup in Hin as [i Hi].
    apply lookup_zip_with_Some in Hi as (? & ? & [= <- <-] & ? & ?). eauto.
  - intros (i & Hc & Hm). exists (x, true). split; [done|].
    apply list_elem_of_filter. split; [done|].
    apply list_elem_of_lookup. exists i.
    apply lookup_zip_with_Some. eauto.
Qed.

(** ** The growth screen *)

(** The only exception [get_growth_filter] can raise is the [KeyError] of a
    column that the table lacks; no arithmetic in it raises. *)
Lemma get_growth_filter_raises df e :
  get_growth_filter df = Raise e ->
  exists label, e = KeyError label /\ label ∈ screen_columns /\ label ∉ line_items df.
Proof.
  unfold get_growth_filter, screen_columns.
  repeat match goal with
         | |- context [getitem df ?l] =>
             let E := fresh "E" in
             destruct (getitem df l) eqn:E; simpl;
             [ clear E
             | intros [= <-]; apply getitem_raises in E as [-> ?];
               eexists; split; [done|]; split; [set_solver|done] ]
         end.
  discriminate.
Qed.

(** The first row of a table has nothing above it: its growth comparisons
    are against NaN and fail. *)
Lemma first_row_fails df :
  all_ten_criteria (value_at df 0) (prior_value_at df 0) = false.
Proof.
  unfold all_ten_criteria.
  assert (prior_value_at df 0 "Total Revenue" = nan) as ->; [|by rewrite ltb_nan_l].
  unfold prior_value_at. destruct (getitem df "Total Revenue") as [col|]; [|done].
  by destruct col.
Qed.

(** On every other row, the value the growth criteria compare with is the
    value one row up, whichever ticker that row belongs to. *)
Lemma prior_value_is_previous_row df i label :
  (S i < length (cells df))%nat ->
  prior_value_at df (S i) label = value_at df i label.
Proof.
  intros Hi. unfold prior_value_at, value_at, getitem.
  destruct (position label (line_items df)); [|done].
  rewrite shift_lookup_S; [done|]. by rewrite length_fmap.
Qed.

Local Ltac split_columns H :=
  repeat match type of H with
         | Forall _ (_ :: _) => apply Forall_cons in H as [?%getitem_present H]
         end.

Local Ltac unfold_series :=
  unfold series_and, series_gt, series_lt, series_gt_scalar, series_lt_scalar,
    series_div, scalar_mul.

Section complete_table.

Context (df : DataFrame).
Hypothesis columns_present : Forall (fun c => c ∈ line_items df) screen_columns.

(** [get_growth_filter] returns one boolean per row: the ten criteria on
    the row's own values and, for the two growth criteria, the values one
    row up in the table. *)
Lemma get_growth_filter_rowwise :
  get_growth_filter df =
  Ok ((fun i => all_ten_criteria (value_at df i) (prior_value_at df i))
        <$> seq 0 (length (cells df))).
Proof.
  pose proof columns_present as H. unfold screen_columns in H. split_columns H.
  repeat match goal with
         | E : exists col, _ |- _ => destruct E as (? & ? & ?)
         end.
  unfold get_growth_filter.
  repeat match goal with
         | E : getitem _ _ = Ok _ |- _ => rewrite E; simpl; revert E
         end.
  intros. f_equal. apply list_eq. intros i.
  rewrite list_lookup_fmap.
  destruct (decide (i < length (cells df))%nat) as [Hi|Hi].
  - rewrite lookup_seq_lt by done. simpl.
    unfold all_ten_criteria.
    repeat match goal with
           | E : getitem df ?l = Ok ?c |- _ =>
               rewrite (value_at_col df l c i E), ?(prior_value_at_col df l c i E); clear E
           end.
    unfold_series.
    rewrite !lookup_zip_with, !list_lookup_fmap, !lookup_zip_with.
    repeat match goal with
           | E : length ?c = length (cells df) |- _ =>
               rewrite (lookup_default (shift c) i) by (rewrite length_shift; lia);
               rewrite (lookup_default c i) by lia; clear E
           | E : length ?c = length (cells df) |- _ =>
               rewrite (lookup_default c i) by lia; clear E
           end.
    reflexivity.
  - rewrite lookup_seq_ge by lia. simpl.
    unfold_series. rewrite !lookup_zip_with.
    match goal with
    | E : getitem df "Total Revenue" = Ok ?c, L : length ?c = length (cells df) |- _ =>
        rewrite (lookup_ge_None_2 c i) by lia
    end.
    reflexivity.
Qed.

(** The first row of the table screens false. *)
Lemma first_row_screens_false :
  cells df <> [] ->
  exists mask, get_growth_filter df = Ok mask /\ mask !! 0%nat = Some false.
Proof.
  intros Hrows. rewrite get_growth_filter_rowwise. eexists. split; [done|].
  rewrite list_lookup_fmap, lookup_seq_lt by (destruct (cells df); simpl; [done|lia]).
  simpl. by rewrite first_row_fails.
Qed.

(** Every later row is screened against the row above it in the table,
    whether or not the two rows belong to one ticker. *)
Lemma later_row_screened_against_previous_row i :
  (S i < length (cells df))%nat ->
  exists mask,
    get_growth_filter df = Ok mask /\
    mask !! S i = Some (all_ten_criteria (value_at df (S i)) (value_at df i)).
Proof.
  intros Hi. rewrite get_growth_filter_rowwise. eexists. split; [done|].
  rewrite list_lookup_fmap, lookup_seq_lt by done. simpl.
  unfold all_ten_criteria. by rewrite !prior_value_is_previous_row.
Qed.

(** C3 (amended): on a table with distinct column labels that has the
    columns the screen reads, [get_growth_filter] returns a mask with one
    boolean per row, whatever the cells hold, zero denominators included,
    and a row is false whenever one of its ratio criteria has a null
    numerator, a null denominator, a zero denominator under a zero
    numerator, or a zero denominator with a quotient other than the
    infinity on the criterion's side of its threshold (+inf for the
    criteria with >, -inf for those with <). *)
Theorem undefined_ratio_screens_false :
  NoDup (line_items df) ->
  exists mask,
    get_growth_filter df = Ok mask /\
    length mask = length (cells df) /\
    forall i num den sd,
      (i < length (cells df))%nat ->
      (num, den, sd) ∈ ratio_criteria ->
      value_at df i num = nan \/
      value_at df i den = nan \/
      (is_zero (value_at df i num) = true /\ is_zero (value_at df i den) = true) \/
      (is_zero (value_at df i den) = true /\
       (value_at df i num / value_at df i den)%float <> infinity_on sd) ->
      mask !! i = Some false.
Proof.
  intros _. rewrite get_growth_filter_rowwise.
  eexists. split; [done|]. split.
  - by rewrite length_fmap, length_seq.
  - intros i num den sd Hi Hin Hundef.
    rewrite list_lookup_fmap, lookup_seq_lt by done. simpl. f_equal.
    eapply ratio_off_side_fails; [done|].
    destruct Hundef as [H|[H|[H|[Hz Hq]]]].
    + left. apply undefined_ratio. auto.
    + left. apply undefined_ratio. auto.
    + left. apply undefined_ratio. auto.
    + destruct (div_by_zero (value_at df i num) _ Hz) as [E|[E|E]]; [by left|..];
        destruct sd; simpl in *; auto; congruence.
Qed.

(** C6: on a table with distinct column labels that has the columns the
    screen reads, the growth screen marks exactly the rows on which all ten
    criteria hold, and the selected tickers are, without repetition,
    exactly the tickers that have at least one marked row. *)
Theorem selected_tickers_any_row :
  NoDup (line_items df) ->
  exists growth_filter selected,
    get_growth_filter df = Ok growth_filter /\
    selected_tickers df = Ok selected /\
    NoDup selected /\
    (forall t, t ∈ selected <->
       exists i, Ticker df !! i = Some t /\ growth_filter !! i = Some true) /\
    (forall i, growth_filter !! i = Some true <->
       (i < length (cells df))%nat /\
       all_ten_criteria (value_at df i) (prior_value_at df i) = true).
Proof.
  intros _. unfold selected_tickers. rewrite get_growth_filter_rowwise. simpl.
  eexists _, _. split; [done|]. split; [done|]. split; [apply NoDup_unique|]. split.
  - intros t. by rewrite elem_of_unique, elem_of_boolean_index.
  - intros i. rewrite list_lookup_fmap. split.
    + destruct (seq 0 (length (cells df)) !! i) as [k|] eqn:E; [|done].
      apply lookup_seq in E as [-> ?]. simpl. intros [= ->]. split; [lia|done].
    + intros [Hi Hc]. by rewrite lookup_seq_lt, <- Hc.
Qed.

End complete_table.

Lemma screen_columns_long_table rows :
  Forall (fun c => c ∈ line_items (long_table rows)) screen_columns.
Proof. apply Forall_forall. auto. Qed.

Lemma NoDup_screen_columns : NoDup screen_columns.
Proof. apply (bool_decide_unpack _). vm_compute. exact I. Qed.

Lemma undefined_ratio_screens_false_witness :
  exists mask,
    get_growth_filter null_operating_income = Ok mask /\
    length mask = 2%nat /\
    mask !! 1%nat = Some false.
Proof.
  destruct (undefined_ratio_screens_false null_operating_income
              (screen_columns_long_table _) NoDup_screen_columns) as (mask & E & L & H).
  exists mask. split; [exact E|]. split; [exact L|].
  apply (H 1%nat "Operating Income" "Total Revenue" Above).
  - simpl. lia.
  - apply list_elem_of_here.
  - left. vm_compute. reflexivity.
Defined.

Lemma selected_tickers_any_row_witness :
  exists selected,
    selected_tickers zero_equity = Ok selected /\
    NoDup selected /\
    "A" ∈ selected.
Proof.
  destruct (selected_tickers_any_row zero_equity (screen_columns_long_table _)
              NoDup_screen_columns)
    as (mask & sel & _ & E & Hnd & Hsel & Hmask).
  exists sel. split; [exact E|]. split; [exact Hnd|].
  apply Hsel. exists 1%nat. split; [reflexivity|].
  apply Hmask. split; [simpl; lia|vm_compute; reflexivity].
Defined.

(** C3 as stated fails: the second row of [zero_equity] has a zero
    denominator in two ratio criteria (Stockholders Equity is 0) and passes
    the screen: its Net Debt is negative and its Net Income positive, so
    the two quotients are -inf and +inf. *)
Lemma zero_equity_row_passes :
  exists mask,
    get_growth_filter zero_equity = Ok mask /\
    ("Net Debt", "Stockholders Equity", Below) ∈ ratio_criteria /\
    is_zero (value_at zero_equity 1 "Stockholders Equity") = true /\
    mask !! 1%nat = Some true.
Proof.
  exists [false; true]. split; [vm_compute; reflexivity|].
  split; [|split; vm_compute; reflexivity].
  unfold ratio_criteria. do 2 apply list_elem_of_further. apply list_elem_of_here.
Qed.

(** C1 (the code departs from it): in the table of ticker A (revenue 100,
    then 150) followed by ticker B (revenue 500), the growth comparisons of
    B's first row are made against A's last row: the prior revenue and
    prior EPS used for row 2 (ticker B) are those of row 1 (ticker A), B's
    row passes the screen although B alone fails it, and raising A's last
    revenue to 600 turns B's row to false. *)
Theorem lag_crosses_ticker_boundary :
  Ticker (two_tickers 150) = ["A"; "A"; "B"] /\
  prior_value_at (two_tickers 150) 2 "Total Revenue" = 150%float /\
  prior_value_at (two_tickers 150) 2 "Diluted EPS" = 2%float /\
  get_growth_filter (two_tickers 150) = Ok [false; true; true] /\
  get_growth_filter (two_tickers 600) = Ok [false; false; false] /\
  get_growth_filter ticker_B_alone = Ok [false].
Proof. repeat split; vm_compute; reflexivity. Qed.

(** C2 (the code departs from it): the earliest period of ticker B, which
    is the only row of B and has no prior period of B, screens true when B
    follows ticker A in the table, so B is selected. *)
Theorem first_period_of_later_ticker_screens_true :
  Ticker (two_tickers 150) = ["A"; "A"; "B"] /\
  Period_column (two_tickers 150) = ["P1"; "P2"; "P1"] /\
  (exists mask, get_growth_filter (two_tickers 150) = Ok mask /\ mask !! 2%nat = Some true) /\
  selected_tickers (two_tickers 150) = Ok ["A"; "B"].
Proof.
  repeat split; try (vm_compute; reflexivity).
  exists [false; true; true]. split; vm_compute; reflexivity.
Qed.

(** ** Ticker sources *)

Lemma fetch_sp500_tickers_unreachable w :
  w sp500_url = None -> fetch_sp500_tickers w = Raise RequestException.
Proof. intros E. unfold fetch_sp500_tickers, requests_get. by rewrite E. Qed.

Lemma fetch_sp500_tickers_error_status w r :
  w sp500_url = Some r -> 400 <= status_code r < 600 ->
  fetch_sp500_tickers w = Raise (HTTPError (status_code r)).
Proof.
  intros E Hs. unfold fetch_sp500_tickers, requests_get, raise_for_status.
  rewrite E. simpl.
  replace (400 <=? status_code r) with true by (symmetry; apply Z.leb_le; lia).
  replace (status_code r <? 600) with true by (symmetry; apply Z.ltb_lt; lia).
  done.
Qed.

(** The Dow Jones source catches its own failures: an unreachable page or a
    status other than 200 gives the empty list. *)
Lemma get_dow_jones_tickers_unreachable w :
  w dow_jones_url = None -> get_dow_jones_tickers w = [].
Proof.
  intros E. unfold get_dow_jones_tickers, dow_jones_body, requests_get. by rewrite E.
Qed.

Lemma get_dow_jones_tickers_bad_status w r :
  w dow_jones_url = Some r -> status_code r <> 200 -> get_dow_jones_tickers w = [].
Proof.
  intros E Hs. unfold get_dow_jones_tickers, dow_jones_body, requests_get.
  rewrite E. simpl. by apply Z.eqb_neq in Hs as ->.
Qed.

(** A failure of the S&P 500 source ends the script's universe construction
    whatever the other two sources return. *)
Lemma tickers_sp500_failure w e :
  fetch_sp500_tickers w = Raise e -> tickers w = Raise e.
Proof. intros E. unfold tickers. by rewrite E. Qed.

(** So does a failed request for the Nasdaq-100 page. *)
Lemma tickers_nasdaq_100_unreachable w sp_500 :
  fetch_sp500_tickers w = Ok sp_500 ->
  w nasdaq_100_url = None ->
  tickers w = Raise RequestException.
Proof.
  intros E1 E2. unfold tickers, get_nasdaq_100_ticker_symbols, requests_get.
  by rewrite E1, E2.
Qed.

(** C4 (the code departs from it): with the S&P 500 page unreachable, or
    answering with status 503, and the other two sources available, the
    universe construction stops with the exception of the S&P 500 fetch;
    the same outage of the Dow Jones page contributes the empty list and
    the construction goes on. *)
Theorem sp500_outage_aborts_universe :
  tickers web_sp500_down = Raise RequestException /\
  tickers web_sp500_unavailable = Raise (HTTPError 503) /\
  get_dow_jones_tickers web_dow_jones_down = [] /\
  (exists universe,
     tickers web_dow_jones_down = Ok universe /\
     list_to_set universe =@{gset string} {[ "AAPL"; "BRK-B"; "MSFT" ]}).
Proof.
  split; [vm_compute; reflexivity|].
  split; [vm_compute; reflexivity|].
  split; [vm_compute; reflexivity|].
  eexists. split; vm_compute; reflexivity.
Qed.

(** ** Universe builder *)

Lemma elem_of_merge lists s :
  s ∈ merge_and_deduplicate_dynamic lists <-> listed lists s.
Proof.
  unfold merge_and_deduplicate_dynamic, listed.
  rewrite elem_of_elements, elem_of_union_list. split.
  - intros (X & (l & -> & Hl)%list_elem_of_fmap & Hs).
    exists l. split; [done|]. by apply elem_of_list_to_set in Hs.
  - intros (l & Hl & Hs). exists (list_to_set l). split.
    + apply list_elem_of_fmap. eauto.
    + by apply elem_of_list_to_set.
Qed.

Lemma NoDup_merge lists : NoDup (merge_and_deduplicate_dynamic lists).
Proof. unfold merge_and_deduplicate_dynamic. apply NoDup_elements. Qed.

Lemma normalize_symbol_other s :
  s <> "BRK.B" -> s <> "BF.B" -> normalize_symbol s = s.
Proof.
  intros H1 H2. unfold normalize_symbol. case_bool_decide as H; [|done].
  apply elem_of_cons in H as [?|H]; [done|].
  apply elem_of_cons in H as [?|H]; [done|]. by apply elem_of_nil in H.
Qed.

(** Two distinct symbols have the same normal form only when one is
    "BRK.B" or "BF.B" and the other its dashed form. *)
Lemma normalize_symbol_eq s1 s2 :
  normalize_symbol s1 = normalize_symbol s2 ->
  s1 = s2 \/
  (s1 = "BRK.B" /\ s2 = "BRK-B") \/ (s1 = "BRK-B" /\ s2 = "BRK.B") \/
  (s1 = "BF.B" /\ s2 = "BF-B") \/ (s1 = "BF-B" /\ s2 = "BF.B").
Proof.
  destruct (decide (s1 = "BRK.B")) as [->|?]; [|destruct (decide (s1 = "BF.B")) as [->|?]];
  (destruct (decide (s2 = "BRK.B")) as [->|?]; [|destruct (decide (s2 = "BF.B")) as [->|?]]);
  rewrite ?(normalize_symbol_other s1), ?(normalize_symbol_other s2) by done;
  change (normalize_symbol "BRK.B") with "BRK-B";
  change (normalize_symbol "BF.B") with "BF-B";
  intros E; try discriminate; subst; auto 10.
Qed.

Lemma NoDup_fmap_inj_on {A B} (f : A -> B) (l : list A) x y :
  NoDup (f <$> l) -> x ∈ l -> y ∈ l -> f x = f y -> x = y.
Proof.
  induction l as [|a l IH]; simpl; intros Hnd Hx Hy E.
  - by apply elem_of_nil in Hx.
  - apply NoDup_cons in Hnd as [Ha Hnd].
    apply elem_of_cons in Hx as [->|Hx]; apply elem_of_cons in Hy as [->|Hy]; auto.
    + destruct Ha. rewrite E. by apply list_elem_of_fmap_2.
    + destruct Ha. rewrite <- E. by apply list_elem_of_fmap_2.
Qed.

Lemma elem_of_build_universe lists x :
  x ∈ build_universe lists <-> exists s, listed lists s /\ x = normalize_symbol s.
Proof.
  unfold build_universe. rewrite list_elem_of_fmap.
  split; intros (s & ? & ?); exists s; rewrite ?elem_of_merge in *; auto.
Qed.

Lemma NoDup_build_universe lists : NoDup (build_universe lists) <-> ~ clash lists.
Proof.
  unfold build_universe, clash. split.
  - intros Hnd [[H1 H2] | [H1 H2]];
      apply elem_of_merge in H1; apply elem_of_merge in H2;
      by pose proof (NoDup_fmap_inj_on _ _ _ _ Hnd H1 H2 eq_refl).
  - intros Hclash. apply NoDup_fmap_2_strong; [|apply NoDup_merge].
    intros s1 s2 H1%elem_of_merge H2%elem_of_merge E.
    destruct (normalize_symbol_eq _ _ E) as [?|[[-> ->]|[[-> ->]|[[-> ->]|[-> ->]]]]];
      [done|..]; destruct Hclash; auto.
Qed.

(** C5 as stated fails: when one source lists "BRK.B" and another lists
    "BRK-B", the normalised universe holds "BRK-B" twice. *)
Lemma universe_repeats_clashing_symbol :
  build_universe [["BRK.B"]; ["BRK-B"]] = ["BRK-B"; "BRK-B"] /\
  ~ NoDup (build_universe [["BRK.B"]; ["BRK-B"]]).
Proof.
  split; [vm_compute; reflexivity|].
  rewrite NoDup_build_universe. intros H. apply H. left.
  split; [exists ["BRK.B"]|exists ["BRK-B"]];
    (split; [|apply list_elem_of_here]); repeat constructor.
Qed.

(** C5 (amended): the universe holds exactly the normal forms of the
    symbols of the sources, whatever their order and repetitions; "BRK.B"
    and "BF.B" are replaced by their dashed forms and every other symbol is
    kept; every symbol of the universe occurs in it once, unless the
    sources list both a remapped symbol and its dashed form; the inputs
    AAPL MSFT / MSFT / BRK.B give the set of AAPL, MSFT and BRK-B, each
    once. *)
Theorem universe_is_union_of_normalized_symbols :
  forall lists,
    (forall x, x ∈ build_universe lists <-> exists s, listed lists s /\ x = normalize_symbol s) /\
    (NoDup (build_universe lists) <-> ~ clash lists) /\
    normalize_symbol "BRK.B" = "BRK-B" /\
    normalize_symbol "BF.B" = "BF-B" /\
    (forall s, s <> "BRK.B" -> s <> "BF.B" -> normalize_symbol s = s) /\
    list_to_set (build_universe [["AAPL"; "MSFT"]; ["MSFT"]; ["BRK.B"]])
      =@{gset string} {[ "AAPL"; "MSFT"; "BRK-B" ]} /\
    NoDup (build_universe [["AAPL"; "MSFT"]; ["MSFT"]; ["BRK.B"]]).
Proof.
  intros lists. split; [apply elem_of_build_universe|].
  split; [apply NoDup_build_universe|].
  split; [reflexivity|]. split; [reflexivity|].
  split; [apply normalize_symbol_other|].
  split; [vm_compute; reflexivity|].
  apply NoDup_build_universe. unfold clash, listed.
  intros [[_ (l & Hl & Hs)]|[(l & Hl & Hs) _]];
    repeat (apply elem_of_cons in Hl as [->|Hl]);
    try (by apply elem_of_nil in Hl);
    repeat (apply elem_of_cons in Hs as [Hs|Hs]; [discriminate Hs|]);
    by apply elem_of_nil in Hs.
Qed.

(** ** Statement assembler *)

Lemma app3_two {A} (l1 l2 l3 : list A) a b :
  (l1 ++ l2 ++ l3 ++ [])%list = [a; b] ->
  (l1 = [a; b] /\ l2 = [] /\ l3 = []) \/
  (l1 = [a] /\ l2 = [b] /\ l3 = []) \/
  (l1 = [a] /\ l2 = [] /\ l3 = [b]) \/
  (l1 = [] /\ l2 = [a; b] /\ l3 = []) \/
  (l1 = [] /\ l2 = [a] /\ l3 = [b]) \/
  (l1 = [] /\ l2 = [] /\ l3 = [a; b]).
Proof.
  rewrite app_nil_r.
  destruct l1 as [|x1 [|y1 [|? ?]]]; destruct l2 as [|x2 [|y2 [|? ?]]];
    destruct l3 as [|x3 [|y3 [|? ?]]]; simpl; intros [=]; subst; auto 10.
Qed.

Lemma frame_cell_Some {I C} `{EqDecision I, EqDecision C} (f : frame I C) i c v :
  frame_cell f i c = Some v ->
  exists r j row,
    position i (index f) = Some r /\ position c (columns f) = Some j /\
    values f !! r = Some row /\ row !! j = Some v.
Proof.
  unfold frame_cell. intros H.
  destruct (position i (index f)) as [r|]; [|done].
  destruct (position c (columns f)) as [j|]; [|done].
  simpl in H. destruct (values f !! r) as [row|] eqn:Hrow; [|done].
  simpl in H. exists r, j, row. by rewrite Hrow.
Qed.

Lemma pd_concat_cons `{EqDecision C} {I} (f : frame I C) fs :
  pd_concat (f :: fs) =
  Ok {| index := concat (index <$> f :: fs);
        columns := unique (concat (columns <$> f :: fs));
        values := concat ((fun g => reindex_row (columns g)
                                      (unique (concat (columns <$> f :: fs))) <$> values g)
                            <$> f :: fs) |}.
Proof. reflexivity. Qed.

Lemma reindex_row_single `{EqDecision C} (cols : list C) c row j v :
  position c cols = Some j -> row !! j = Some v -> reindex_row cols [c] row = [v].
Proof. intros Hj Hv. unfold reindex_row, cell. simpl. by rewrite Hj, Hv. Qed.

(** C8: for a single ticker whose three statement tables together have one
    reporting period and the two line items Total Revenue, with value 100,
    and Operating Income, with value 20, in whichever of the three tables,
    the assembled table has exactly one row; its Ticker is the symbol, its
    period is that reporting period, its Total Revenue is 100 and its
    Operating Income is 20. *)
Theorem single_period_statement_row (yf : provider) (symbol : string) (P : Period) :
  let frames := [financials (yf symbol); balancesheet (yf symbol); cashflow (yf symbol)] in
  Forall statement_table frames ->
  unique (concat (columns <$> frames)) = [P] ->
  concat (index <$> frames) ≡ₚ ["Total Revenue"; "Operating Income"] ->
  (exists f, f ∈ frames /\ frame_cell f "Total Revenue" P = Some 100%float) ->
  (exists f, f ∈ frames /\ frame_cell f "Operating Income" P = Some 20%float) ->
  exists df,
    fetch_fundamental_data yf [symbol] = Ok df /\
    Ticker df = [symbol] /\
    Period_column df = [P] /\
    length (cells df) = 1%nat /\
    getitem df "Total Revenue" = Ok [100%float] /\
    getitem df "Operating Income" = Ok [20%float].
Proof.
  intros frames Hshape Hcols Hitems Hrev Hinc. subst frames.
  unfold fetch_fundamental_data, assemble. cbn [mapM mbind result_bind].
  destruct (yf symbol) as [[i1 c1 v1] [i2 c2 v2] [i3 c3 v3]].
  cbn [financials balancesheet cashflow] in *.
  rewrite pd_concat_cons.
  cbn [fmap list_fmap concat index columns values] in *.
  rewrite Hcols. clear Hcols.
  apply Forall_cons in Hshape as [[[L1 _] _] Hshape].
  apply Forall_cons in Hshape as [[[L2 _] _] Hshape].
  apply Forall_cons in Hshape as [[[L3 _] _] _].
  cbn [index columns values] in *.
  destruct Hrev as (fr & Hfr & Hrev). destruct Hinc as (fi & Hfi & Hinc).
  apply frame_cell_Some in Hrev as (rr & jr & rowr & Hrr & Hjr & Hrowr & Hvr).
  apply frame_cell_Some in Hinc as (ri & ji & rowi & Hri & Hji & Hrowi & Hvi).
  symmetry in Hitems. apply Permutation_length_2_inv in Hitems as [Hitems|Hitems];
    apply app3_two in Hitems as
      [(-> & -> & ->)|[(-> & -> & ->)|[(-> & -> & ->)|[(-> & -> & ->)|[(-> & -> & ->)|(-> & -> & ->)]]]]].
  all: repeat match goal with
         | L : length ?v = length [] |- _ => destruct v; [clear L|discriminate L]
         | L : length ?v = length [_] |- _ => destruct v as [|? [|? ?]]; try discriminate L; clear L
         | L : length ?v = length [_; _] |- _ => destruct v as [|? [|? [|? ?]]]; try discriminate L; clear L
         end.
  all: repeat (apply elem_of_cons in Hfr as [->|Hfr]); try (by apply elem_of_nil in Hfr).
  all: cbn [index columns values] in *.
  all: vm_compute in Hrr; try discriminate Hrr; injection Hrr as <-.
  all: repeat (apply elem_of_cons in Hfi as [->|Hfi]); try (by apply elem_of_nil in Hfi).
  all: cbn [index columns values] in *.
  all: vm_compute in Hri; try discriminate Hri; injection Hri as <-.
  all: cbn [lookup list_lookup] in Hrowr, Hrowi.
  all: injection Hrowr as <-; injection Hrowi as <-.
  all: cbn [fmap list_fmap concat app].
  all: rewrite ?(reindex_row_single _ _ _ _ _ Hjr Hvr), ?(reindex_row_single _ _ _ _ _ Hji Hvi).
  all: eexists; split; [vm_compute; reflexivity|].
  all: repeat split; vm_compute; reflexivity.
Qed.

Lemma single_period_statement_row_witness :
  exists df,
    fetch_fundamental_data one_period_provider ["X"] = Ok df /\
    Ticker df = ["X"] /\
    Period_column df = ["2023-12-31"] /\
    length (cells df) = 1%nat /\
    getitem df "Total Revenue" = Ok [100%float] /\
    getitem df "Operating Income" = Ok [20%float].
Proof.
  apply (single_period_statement_row one_period_provider "X" "2023-12-31").
  - repeat (apply Forall_cons; split); try apply Forall_nil_2;
      (split; [split; [reflexivity|repeat constructor]|]);
      repeat constructor; apply not_elem_of_nil.
  - vm_compute. reflexivity.
  - reflexivity.
  - eexists. split; [apply list_elem_of_here|]. vm_compute. reflexivity.
  - eexists. split; [apply list_elem_of_here|]. vm_compute. reflexivity.
Defined.

(** ** Weight calculator *)

Lemma mapM_Ok {A B} (f : A -> result B) (g : A -> B) l :
  (forall x, x ∈ l -> f x = Ok (g x)) -> mapM f l = Ok (g <$> l).
Proof.
  induction l as [|x l IH]; intros H; [done|].
  simpl. rewrite (H x) by apply list_elem_of_here. simpl.
  rewrite IH; [done|]. intros y Hy. apply H. by apply list_elem_of_further.
Qed.

Lemma dict_set_fresh {V} k (v : V) d : k ∉ d.*1 -> dict_set k v d = (d ++ [(k, v)])%list.
Proof.
  induction d as [|[k' v'] d IH]; simpl; intros Hk; [done|].
  apply not_elem_of_cons in Hk as [? ?].
  destruct (decide (k' = k)); [congruence|]. by rewrite IH.
Qed.

Lemma dict_set_same {V} k (v : V) d : NoDup d.*1 -> (k, v) ∈ d -> dict_set k v d = d.
Proof.
  induction d as [|[k' v'] d IH]; simpl; intros Hnd Hin.
  - by apply elem_of_nil in Hin.
  - apply NoDup_cons in Hnd as [Hk' Hnd].
    destruct (decide (k' = k)) as [->|Hne].
    + apply elem_of_cons in Hin as [[= ->]|Hin]; [done|].
      destruct Hk'. apply list_elem_of_fmap. by exists (k, v).
    + apply elem_of_cons in Hin as [[= -> ->]|Hin]; [done|]. by rewrite IH.
Qed.

Lemma total_market_cap_nonneg (d : list (string * Z)) :
  Forall (fun p => 0 <= p.2) d -> 0 <= total_market_cap d.
Proof.
  unfold total_market_cap. induction 1 as [|[t c] d Hc Hd IH]; csimpl in *; lia.
Qed.

Lemma total_market_cap_bound (d : list (string * Z)) t c :
  Forall (fun p => 0 <= p.2) d -> (t, c) ∈ d -> c <= total_market_cap d.
Proof.
  induction 1 as [|[t' c'] d Hc Hd IH]; intros Hin.
  - by apply elem_of_nil in Hin.
  - pose proof (total_market_cap_nonneg d Hd).
    unfold total_market_cap in *. csimpl in *.
    apply elem_of_cons in Hin as [[= -> ->]|Hin]; [lia|].
    specialize (IH Hin). lia.
Qed.

Lemma overflow_threshold_large : 2 <= overflow_threshold.
Proof. apply Z.leb_le. vm_compute. reflexivity. Qed.

(** A positive integer divided by one at least as large neither divides by
    zero nor overflows. *)
Lemma int_truediv_fraction c total :
  0 < c <= total ->
  int_truediv c total = Ok (SF2Prim (SFdiv prec emax (Z2SF c) (Z2SF total))).
Proof.
  intros Hc. unfold int_truediv.
  destruct (Z.eqb_spec total 0); [lia|].
  pose proof overflow_threshold_large.
  destruct (Z.leb_spec (overflow_threshold * Z.abs total) (Z.abs c)); [nia|done].
Qed.

Section market_caps.

Context (info : market_data).

Lemma elem_of_included ts t c :
  (t, c) ∈ included info ts <-> t ∈ ts /\ info t = Some c /\ c <> 0.
Proof.
  unfold included. rewrite list_elem_of_omap. unfold available. split.
  - intros (t' & Ht' & E). rewrite elem_of_unique in Ht'.
    destruct (info t') as [c'|] eqn:Ei; [|done].
    destruct (Z.eqb_spec c' 0); [done|]. by simplify_eq/=.
  - intros (Ht & Ei & Hc). exists t. split; [by apply elem_of_unique|].
    rewrite Ei. by destruct (Z.eqb_spec c 0).
Qed.

Lemma included_keys ts t :
  t ∈ (included info ts).*1 <-> t ∈ ts /\ exists c, info t = Some c /\ c <> 0.
Proof.
  rewrite list_elem_of_fmap. split.
  - intros ([t' c] & -> & H%elem_of_included). naive_solver.
  - intros (Ht & c & Ei & Hc). exists (t, c). split; [done|]. by apply elem_of_included.
Qed.

Lemma NoDup_included ts : NoDup (included info ts).*1.
Proof.
  unfold included. generalize (NoDup_unique ts). generalize (unique ts).
  induction 1 as [|t l Ht Hnd IH]; simpl; [constructor|].
  destruct (available info t) as [c|]; simpl; [|done].
  apply NoDup_cons. split; [|done].
  intros ([t' c'] & -> & (t'' & ? & E)%list_elem_of_omap)%list_elem_of_fmap.
  destruct (available info t''); [|done]. by simplify_eq/=.
Qed.

Lemma included_snoc ts t :
  included info (ts ++ [t]) =
  match available info t with
  | Some c => if decide (t ∈ ts) then included info ts else (included info ts ++ [(t, c)])%list
  | None => included info ts
  end.
Proof.
  unfold included. rewrite unique_snoc.
  destruct (decide (t ∈ ts)); [by destruct (available info t)|].
  rewrite omap_app. simpl. destruct (available info t); simpl; [done|].
  by rewrite app_nil_r.
Qed.

(** The dictionary the loop builds holds the included tickers. *)
Lemma collect_market_caps_included ts :
  collect_market_caps info ts = included info ts.
Proof.
  induction ts as [|t ts IH] using rev_ind; [done|].
  unfold collect_market_caps in *. rewrite foldl_app, IH, included_snoc. simpl.
  unfold available. destruct (info t) as [c|] eqn:Ei; [|done].
  destruct (Z.eqb_spec c 0) as [->|Hc]; [done|].
  destruct (decide (t ∈ ts)) as [Ht|Ht].
  - apply dict_set_same; [apply NoDup_included|]. by apply elem_of_included.
  - apply dict_set_fresh. rewrite included_keys. naive_solver.
Qed.

Lemma collect_market_caps_skip t tickers :
  info t = Some 0 ->
  collect_market_caps info (filter (fun t' => t' <> t) tickers)
    = collect_market_caps info tickers.
Proof.
  intros E. unfold collect_market_caps. generalize (@nil (string * Z)).
  induction tickers as [|t' ts IH]; intros acc; [done|].
  rewrite filter_cons. destruct (decide (t' <> t)) as [Hne|Heq]; simpl.
  - apply IH.
  - apply dec_stable in Heq as ->. rewrite E. simpl. apply IH.
Qed.

(** The output has one pair per entry of the dictionary, under its key. *)
Lemma weights_keys tickers out :
  calculate_market_cap_weights info tickers = Ok out ->
  out.*1 = (collect_market_caps info tickers).*1.
Proof.
  unfold calculate_market_cap_weights.
  generalize (total_market_cap (collect_market_caps info tickers)).
  generalize (collect_market_caps info tickers). intros d total. revert out.
  induction d as [|[t c] d IH]; intros out; simpl.
  - by intros [= <-].
  - destruct (int_truediv c total); simpl; [|done].
    destruct (mapM _ d) as [rest|] eqn:E; simpl; [|done].
    intros [= <-]. csimpl. f_equal. by apply IH.
Qed.

(** C7 as stated fails: for the market caps A: 2646007032325 and
    B: 1608365557634 the shares are 62.19499... and 37.80500... per cent,
    which rounded to two decimals are 62.19 and 37.81, and the calculator
    returns 62.2 and 37.8: the product of the rounded quotient with 100 is
    the float 62.195 (37.805), on the other side of the tie. *)
Lemma weights_miss_rounded_shares :
  calculate_market_cap_weights caps_next_to_tie ["A"; "B"]
    = Ok [("A", 62.2%float); ("B", 37.8%float)] /\
  total_market_cap (included caps_next_to_tie ["A"; "B"]) = 4254372589959 /\
  exact_share 2646007032325 4254372589959 62.19 /\
  exact_share 1608365557634 4254372589959 37.81 /\
  ~ exact_share 2646007032325 4254372589959 62.2 /\
  ~ exact_share 1608365557634 4254372589959 37.8.
Proof.
  split; [vm_compute; reflexivity|]. split; [vm_compute; reflexivity|].
  split; [exists 6219; split; [lia|vm_compute; reflexivity]|].
  split; [exists 3781; split; [lia|vm_compute; reflexivity]|].
  split.
  - intros (n & Hn & Hw). assert (n = 6219) as -> by lia.
    apply (f_equal Prim2SF) in Hw. vm_compute in Hw. discriminate Hw.
  - intros (n & Hn & Hw). assert (n = 3781) as -> by lia.
    apply (f_equal Prim2SF) in Hw. vm_compute in Hw. discriminate Hw.
Qed.

(** C7 (amended): when no reported market cap is negative, the weight
    calculator returns one pair for each included ticker (those of the
    input whose market cap is reported and not 0, each once, in the order
    of their first appearance), and the weight of the pair is computed in
    binary64 from the market cap and the sum of the included market caps:
    the quotient is rounded to the nearest binary64, its product with 100
    is rounded again, and the weight is the whole number of hundredths
    nearest to the exact value of that float (the even one on a tie), as
    the nearest binary64.  Tickers without an available market cap are
    neither in the output nor in the sum.  Market caps A: 100 and B: 300
    give the weights 25.00 and 75.00. *)
Theorem weights_are_market_cap_shares tickers :
  (forall t c, t ∈ tickers -> info t = Some c -> 0 <= c) ->
  let market_caps := included info tickers in
  let total := total_market_cap market_caps in
  exists out,
    calculate_market_cap_weights info tickers = Ok out /\
    Forall2 (fun p r => r.1 = p.1 /\ binary64_share p.2 total r.2) market_caps out /\
    NoDup market_caps.*1 /\
    (forall t cap, (t, cap) ∈ market_caps <-> t ∈ tickers /\ info t = Some cap /\ cap <> 0) /\
    calculate_market_cap_weights caps_A_B ["A"; "B"] = Ok [("A", 25%float); ("B", 75%float)].
Proof.
  intros Hpos market_caps total.
  exists ((fun '(t, cap) => (t, weight cap total)) <$> market_caps).
  split; [|split; [|split; [apply NoDup_included|split; [apply elem_of_included|]]]].
  - unfold calculate_market_cap_weights. rewrite collect_market_caps_included.
    fold market_caps. fold total.
    apply mapM_Ok. intros [t c] Hin.
    rewrite int_truediv_fraction; [done|].
    pose proof Hin as (Ht & Ei & Hc)%elem_of_included.
    split; [specialize (Hpos t c Ht Ei); lia|].
    apply (total_market_cap_bound market_caps t); [|done].
    apply Forall_forall. intros [t' c'] (Ht' & Ei' & _)%elem_of_included. simpl. eauto.
  - apply Forall2_fmap_r, Forall_Forall2_diag, Forall_forall.
    intros [t c] _. split; [done|]. apply py_round2_spec.
  - vm_compute. reflexivity.
Qed.

(** C9: a ticker whose reported market cap is 0 leaves the sum of the
    market caps and the whole result as they are without it, and never
    appears in the output pairs. *)
Theorem zero_market_cap_is_excluded tickers t :
  info t = Some 0 ->
  let others := filter (fun t' => t' <> t) tickers in
  total_market_cap (collect_market_caps info tickers)
    = total_market_cap (collect_market_caps info others) /\
  calculate_market_cap_weights info tickers = calculate_market_cap_weights info others /\
  (forall out, calculate_market_cap_weights info tickers = Ok out -> t ∉ out.*1).
Proof.
  intros E others. split; [|split].
  - unfold others. by rewrite collect_market_caps_skip.
  - unfold calculate_market_cap_weights, others. by rewrite collect_market_caps_skip.
  - intros out Hout. rewrite (weights_keys _ _ Hout), collect_market_caps_included.
    rewrite included_keys. intros (_ & c & Ec & Hc). congruence.
Qed.

(** C10: when no ticker of the input has an available market cap, the input
    being empty or not, the sum of the market caps is 0 and the weight
    calculator returns the empty list; it raises nothing. *)
Theorem no_available_market_cap_gives_no_weights tickers :
  (forall t, t ∈ tickers -> info t = None \/ info t = Some 0) ->
  total_market_cap (collect_market_caps info tickers) = 0 /\
  calculate_market_cap_weights info tickers = Ok [].
Proof.
  intros H.
  assert (collect_market_caps info tickers = []) as E.
  { rewrite collect_market_caps_included.
    destruct (included info tickers) as [|[t c] d] eqn:Ed; [done|].
    assert ((t, c) ∈ included info tickers) as (Ht & Ei & Hc)%elem_of_included
      by (rewrite Ed; apply list_elem_of_here).
    destruct (H t Ht); congruence. }
  unfold calculate_market_cap_weights. by rewrite E.
Qed.

End market_caps.

Lemma weights_are_market_cap_shares_witness :
  exists out,
    calculate_market_cap_weights caps_next_to_tie ["A"; "D"; "B"; "A"] = Ok out /\
    Forall2 (fun p r => r.1 = p.1 /\ binary64_share p.2 4254372589959 r.2)
      [("A", 2646007032325); ("B", 1608365557634)] out.
Proof.
  destruct (weights_are_market_cap_shares caps_next_to_tie ["A"; "D"; "B"; "A"])
    as (out & E & H & _).
  - intros t c _. unfold caps_next_to_tie.
    repeat match goal with
           | |- context [String.eqb ?a ?b] => destruct (String.eqb a b)
           end; intros [= <-]; lia.
  - exists out. split; [exact E|]. exact H.
Defined.

Lemma zero_market_cap_is_excluded_witness :
  calculate_market_cap_weights caps_A_B ["A"; "C"; "B"]
    = calculate_market_cap_weights caps_A_B ["A"; "B"].
Proof.
  exact (proj1 (proj2 (zero_market_cap_is_excluded caps_A_B ["A"; "C"; "B"] "C" eq_refl))).
Defined.

Lemma no_available_market_cap_gives_no_weights_witness :
  calculate_market_cap_weights caps_A_B ["C"; "D"] = Ok [] /\
  calculate_market_cap_weights caps_A_B [] = Ok [].
Proof.
  split.
  - refine (proj2 (no_available_market_cap_gives_no_weights caps_A_B ["C"; "D"] _)).
    intros t [->|[->|[]%elem_of_nil]%elem_of_cons]%elem_of_cons; [right|left]; reflexivity.
  - refine (proj2 (no_available_market_cap_gives_no_weights caps_A_B [] _)).
    intros t []%elem_of_nil.
Defined.

(** * Further properties of the script *)

(** ** Ticker sources *)

Lemma mapM_result_Forall2 {A B} (f : A -> result B) (l : list A) (k : list B) :
  mapM f l = Ok k <-> Forall2 (fun x y => f x = Ok y) l k.
Proof.
  revert k. induction l as [|x l IH]; intros k; simpl.
  - split; [intros [= <-]; constructor|]. by intros ->%Forall2_nil_inv_l.
  - destruct (f x) as [y|e] eqn:E; simpl.
    + destruct (mapM f l) as [k'|e'] eqn:E'; simpl.
      * split.
        -- intros [= <-]. constructor; [done|]. by apply IH.
        -- intros (y' & k'' & Hy & Hk & ->)%Forall2_cons_inv_l.
           apply IH in Hk. rewrite E in Hy.
           injection Hy as ->. injection Hk as ->. reflexivity.
      * split; [done|].
        intros (y' & k'' & Hy & Hk & ->)%Forall2_cons_inv_l. by apply IH in Hk.
    + split; [done|].
      intros (y' & k'' & Hy & Hk & ->)%Forall2_cons_inv_l. by rewrite E in Hy.
Qed.

Lemma mapM_result_Raise {A B} (f : A -> result B) (l : list A) e :
  (forall x e', x ∈ l -> f x = Raise e' -> e' = e) ->
  Exists (fun x => exists e', f x = Raise e') l ->
  mapM f l = Raise e.
Proof.
  induction l as [|x l IH]; intros Honly Hex; [by apply Exists_nil in Hex|].
  simpl. destruct (f x) as [y|e'] eqn:E; simpl.
  - rewrite IH; [done| |].
    + intros x' e' Hx'. apply Honly. by apply list_elem_of_further.
    + apply Exists_cons in Hex as [[e' He']|Hex]; [congruence|done].
  - f_equal. apply (Honly x); [apply list_elem_of_here|done].
Qed.

(** X1: when the S&P 500 page answers with a status outside 400..599 and
    has the constituents table, each of whose rows after the first has at
    least one cell, [fetch_sp500_tickers] returns one ticker per such row,
    in the order of the rows: the text of the row's first cell, stripped. *)
Theorem fetch_sp500_tickers_parses_first_cells w r table :
  w sp500_url = Some r ->
  ~ (400 <= status_code r < 600) ->
  find_table_by_id (soup r) "constituents" = Some table ->
  Forall (fun row => td_texts row <> []) (tail table) ->
  exists tickers,
    fetch_sp500_tickers w = Ok tickers /\
    Forall2 (fun row ticker => exists first, head (td_texts row) = Some first /\
                                             ticker = strip first)
            (tail table) tickers.
Proof.
  intros Hw Hs Ht Hrows. unfold fetch_sp500_tickers, requests_get, raise_for_status.
  rewrite Hw. simpl.
  replace ((400 <=? status_code r) && (status_code r <? 600)) with false
    by (symmetry; apply andb_false_iff; rewrite Z.leb_gt, Z.ltb_ge; lia).
  simpl. rewrite Ht.
  exists ((fun row => strip (default "" (head (td_texts row)))) <$> tail table).
  split.
  - apply mapM_result_Forall2, Forall2_fmap_r, Forall_Forall2_diag.
    eapply Forall_impl; [exact Hrows|]. intros row Hrow. simpl in *.
    unfold py_index. destruct (td_texts row) as [|c cs]; [by destruct Hrow|reflexivity].
  - apply Forall2_fmap_r, Forall_Forall2_diag.
    eapply Forall_impl; [exact Hrows|]. intros row Hrow. simpl in *.
    destruct (td_texts row) as [|c cs]; [by destruct Hrow|]. by exists c.
Qed.

Lemma fetch_sp500_tickers_parses_first_cells_witness :
  exists tickers,
    fetch_sp500_tickers (web_of (ok_response sp500_page_padded) None None) = Ok tickers /\
    length tickers = 2%nat.
Proof.
  destruct (fetch_sp500_tickers_parses_first_cells
              (web_of (ok_response sp500_page_padded) None None)
              {| status_code := 200; soup := sp500_page_padded |}
              (default [] (find_table_by_id sp500_page_padded "constituents")))
    as (tickers & E & H).
  - reflexivity.
  - simpl. lia.
  - reflexivity.
  - simpl. repeat constructor; discriminate.
  - exists tickers. split; [exact E|].
    apply Forall2_length in H. simpl in H. congruence.
Defined.

(** X2: when the S&P 500 page answers with a status outside 400..599,
    [fetch_sp500_tickers] raises AttributeError if the page has no
    constituents table, and IndexError if some row of the table after the
    first has no cell (a second header row, say), whatever the other rows
    hold. *)
Theorem fetch_sp500_tickers_malformed_page w r :
  w sp500_url = Some r ->
  ~ (400 <= status_code r < 600) ->
  match find_table_by_id (soup r) "constituents" with
  | None => fetch_sp500_tickers w = Raise AttributeError
  | Some table =>
      Exists (fun row => td_texts row = []) (tail table) ->
      fetch_sp500_tickers w = Raise IndexError
  end.
Proof.
  intros Hw Hs. unfold fetch_sp500_tickers, requests_get, raise_for_status.
  rewrite Hw. simpl.
  replace ((400 <=? status_code r) && (status_code r <? 600)) with false
    by (symmetry; apply andb_false_iff; rewrite Z.leb_gt, Z.ltb_ge; lia).
  simpl. destruct (find_table_by_id (soup r) "constituents") as [table|]; [|done].
  intros Hex. apply mapM_result_Raise.
  - intros row e' _. unfold py_index. destruct (td_texts row !! 0%nat); simpl; congruence.
  - eapply Exists_impl; [exact Hex|]. intros row Hrow. simpl.
    exists IndexError. by rewrite Hrow.
Qed.

Lemma fetch_sp500_tickers_malformed_page_witness :
  fetch_sp500_tickers
    (web_of (ok_response sp500_page_empty_row) None None) = Raise IndexError /\
  fetch_sp500_tickers
    (web_of (ok_response page_without_table) None None) = Raise AttributeError.
Proof.
  split.
  - refine (fetch_sp500_tickers_malformed_page
              (web_of (ok_response sp500_page_empty_row) None None)
              {| status_code := 200; soup := sp500_page_empty_row |} eq_refl _ _).
    + simpl. lia.
    + simpl. apply Exists_cons_tl, Exists_cons_hd. reflexivity.
  - refine (fetch_sp500_tickers_malformed_page
              (web_of (ok_response page_without_table) None None)
              {| status_code := 200; soup := page_without_table |} eq_refl _).
    simpl. lia.
Defined.

Local Abbreviation dow_jones_step :=
  (fun (acc : result (list string)) (row : tr) =>
     tickers ← acc;
     let cells := tds row in
     if (0 <? length cells)%nat
     then cell ← py_index cells 1; Ok (tickers ++ [get_text_strip cell])%list
     else Ok tickers).

Lemma dow_jones_rows_raise (rows : list tr) e :
  foldl dow_jones_step (Raise e) rows = Raise e.
Proof. induction rows as [|r rs IH]; [done|]. simpl. apply IH. Qed.

Lemma dow_jones_rows_ok (rows : list tr) (acc : list string) :
  Forall (fun row => length (td_texts row) <> 1%nat) rows ->
  foldl dow_jones_step (Ok acc) rows = Ok (acc ++ second_cells_get_text rows)%list.
Proof.
  intros H. revert acc. induction H as [|row rows Hrow Hrows IH]; intros acc.
  - simpl. by rewrite app_nil_r.
  - unfold second_cells_get_text, td_texts in *. rewrite length_fmap in Hrow. simpl.
    destruct (tds row) as [|c1 [|c2 cs]] eqn:E; simpl in *; [|done|].
    + by rewrite IH.
    + by rewrite IH, <- app_assoc.
Qed.

Lemma dow_jones_rows_short (rows : list tr) (acc : list string) :
  Exists (fun row => length (td_texts row) = 1%nat) rows ->
  foldl dow_jones_step (Ok acc) rows = Raise IndexError.
Proof.
  intros H. revert acc. induction H as [row rows Hrow|row rows Hrows IH]; intros acc.
  - unfold td_texts in Hrow. rewrite length_fmap in Hrow. simpl.
    destruct (tds row) as [|c1 [|c2 cs]]; try done.
    simpl. apply dow_jones_rows_raise.
  - simpl. destruct (tds row) as [|c1 [|c2 cs]]; simpl.
    + apply IH.
    + apply dow_jones_rows_raise.
    + apply IH.
Qed.

(** X3: when the Dow Jones page answers 200 and has the table, none of
    whose rows after the first has exactly one cell,
    [get_dow_jones_tickers] returns, in the order of the rows, what
    [get_text(strip=True)] gives for the second cell of every such row that
    has cells (the text nodes of the cell, each stripped, joined without a
    separator); rows without cells are skipped. *)
Theorem get_dow_jones_tickers_parses_second_cells w r table :
  w dow_jones_url = Some r ->
  status_code r = 200 ->
  find_table_by_class (soup r) "wikitable sortable" = Some table ->
  Forall (fun row => length (td_texts row) <> 1%nat) (tail table) ->
  get_dow_jones_tickers w = second_cells_get_text (tail table).
Proof.
  intros Hw Hs Ht Hrows.
  unfold get_dow_jones_tickers, dow_jones_body, requests_get.
  rewrite Hw. simpl. rewrite Hs. simpl. rewrite Ht.
  by rewrite dow_jones_rows_ok.
Qed.

Lemma get_dow_jones_tickers_parses_second_cells_witness :
  get_dow_jones_tickers (web_of None (ok_response dow_jones_page_footnotes) None)
  = ["AAPL[1]"; "BA[2]"].
Proof.
  refine (get_dow_jones_tickers_parses_second_cells
            (web_of None (ok_response dow_jones_page_footnotes) None)
            {| status_code := 200; soup := dow_jones_page_footnotes |}
            (default [] (find_table_by_class dow_jones_page_footnotes "wikitable sortable"))
            _ _ _ _).
  - reflexivity.
  - reflexivity.
  - reflexivity.
  - simpl. repeat constructor; simpl; lia.
Defined.

(** X4: a single row with exactly one cell costs the Dow Jones source its
    whole list: when the page answers 200 and some row of the table after
    the first has exactly one cell, [get_dow_jones_tickers] returns the
    empty list, whatever symbols the other rows hold (the IndexError is
    caught by the function's handler). *)
Theorem get_dow_jones_tickers_one_short_row w r table :
  w dow_jones_url = Some r ->
  status_code r = 200 ->
  find_table_by_class (soup r) "wikitable sortable" = Some table ->
  Exists (fun row => length (td_texts row) = 1%nat) (tail table) ->
  get_dow_jones_tickers w = [].
Proof.
  intros Hw Hs Ht Hrows.
  unfold get_dow_jones_tickers, dow_jones_body, requests_get.
  rewrite Hw. simpl. rewrite Hs. simpl. rewrite Ht.
  by rewrite dow_jones_rows_short.
Qed.

Lemma get_dow_jones_tickers_one_short_row_witness :
  get_dow_jones_tickers
    (web_of None (ok_response dow_jones_page_short_row) None) = [].
Proof.
  refine (get_dow_jones_tickers_one_short_row
            (web_of None (ok_response dow_jones_page_short_row) None)
            {| status_code := 200; soup := dow_jones_page_short_row |}
            (default [] (find_table_by_class dow_jones_page_short_row "wikitable sortable"))
            _ _ _ _).
  - reflexivity.
  - reflexivity.
  - reflexivity.
  - simpl. apply Exists_cons_tl, Exists_cons_hd. reflexivity.
Defined.

Lemma nasdaq_rows_fold (rows : list tr) (acc : list string) :
  foldl (fun (acc : result (list string)) row =>
           ticker_symbols ← acc;
           let cols := td_texts row in
           if (2 <=? length cols)%nat
           then symbol ← py_index cols 1; Ok (ticker_symbols ++ [strip symbol])%list
           else Ok ticker_symbols)
        (Ok acc) rows
  = Ok (acc ++ second_cells rows)%list.
Proof.
  revert acc. induction rows as [|row rows IH]; intros acc; simpl.
  - by rewrite app_nil_r.
  - unfold second_cells. simpl.
    destruct (td_texts row) as [|c1 [|c2 cs]] eqn:E; simpl; rewrite IH; try done.
    by rewrite <- app_assoc.
Qed.

(** X5: once the request for the Nasdaq-100 page completes,
    [get_nasdaq_100_ticker_symbols] raises nothing, whatever the status
    code and whatever the page holds: it returns the stripped second cells
    of the rows after the first of the first table whose first row mentions
    'Symbol', skipping rows with fewer than two cells, and the empty list
    when there is no such table. *)
Theorem get_nasdaq_100_ticker_symbols_total w r :
  w nasdaq_100_url = Some r ->
  get_nasdaq_100_ticker_symbols w =
  Ok match locate_symbol_table (find_all_tables_by_class (soup r) "wikitable") with
     | Some nasdaq_table => second_cells (tail nasdaq_table)
     | None => []
     end.
Proof.
  intros Hw. unfold get_nasdaq_100_ticker_symbols, requests_get. rewrite Hw. simpl.
  destruct (locate_symbol_table _); [|done]. apply nasdaq_rows_fold.
Qed.

Lemma get_nasdaq_100_ticker_symbols_total_witness :
  get_nasdaq_100_ticker_symbols
    (web_of None None (Some {| status_code := 404; soup := nasdaq_100_page |}))
  = Ok ["AAPL"; "MSFT"].
Proof.
  exact (get_nasdaq_100_ticker_symbols_total
           (web_of None None (Some {| status_code := 404; soup := nasdaq_100_page |}))
           {| status_code := 404; soup := nasdaq_100_page |} eq_refl).
Defined.

(** X6: the Nasdaq-100 table is the first match: [locate_symbol_table]
    returns a table exactly when that table's first row mentions 'Symbol'
    and no table before it in the page does; it returns nothing exactly
    when no table of the page does. *)
Theorem locate_symbol_table_first_match tables :
  (forall table,
     locate_symbol_table tables = Some table <->
     exists k, tables !! k = Some table /\ mentions_Symbol table /\
               forall j earlier, (j < k)%nat -> tables !! j = Some earlier ->
                                 ~ mentions_Symbol earlier) /\
  (locate_symbol_table tables = None <-> Forall (fun table => ~ mentions_Symbol table) tables).
Proof.
  induction tables as [|t ts [IHs IHn]]; simpl.
  - split.
    + intros table. split; [done|]. by intros (k & Hk & _).
    + split; [constructor|done].
  - assert (Decision (mentions_Symbol t)) as [Hm|Hm].
    { unfold mentions_Symbol. destruct (head t) as [h|].
      - destruct (str_contains "Symbol" (tr_text h)) eqn:E; [left; eauto|].
        right. intros (h' & [= <-] & ?). congruence.
      - right. by intros (h' & ? & _). }
    + pose proof Hm as (h & Hh & Hc). rewrite Hh, Hc. split.
      * intros table. split.
        -- intros [= <-]. exists 0%nat. split; [done|]. split; [done|]. lia.
        -- intros ([|k] & Hk & Ht & Hfirst).
           ++ by injection Hk as ->.
           ++ destruct (Hfirst 0%nat t); [lia|done|done].
      * split; [done|]. by intros [? _]%Forall_cons.
    + assert (match head t with
              | Some headers =>
                  if str_contains "Symbol" (tr_text headers) then Some t
                  else locate_symbol_table ts
              | None => locate_symbol_table ts
              end = locate_symbol_table ts) as ->.
      { destruct (head t) as [h|] eqn:Hh; [|done].
        destruct (str_contains "Symbol" (tr_text h)) eqn:Hc; [|done].
        destruct Hm. by exists h. }
      split.
      * intros table. rewrite IHs. split.
        -- intros (k & Hk & Ht & Hfirst). exists (S k). split; [done|]. split; [done|].
           intros [|j] earlier Hj He.
           ++ by injection He as <-.
           ++ apply (Hfirst j); [lia|done].
        -- intros ([|k] & Hk & Ht & Hfirst).
           ++ injection Hk as ->. done.
           ++ exists k. split; [done|]. split; [done|].
              intros j earlier Hj He. apply (Hfirst (S j)); [lia|done].
      * rewrite IHn. split; [by constructor|by intros [_ ?]%Forall_cons].
Qed.

(** ** Universe builder *)

(** X7: [merge_and_deduplicate_dynamic] returns a list without duplicates
    that holds exactly the symbols of its argument lists; without
    arguments, or with empty lists only, it returns the empty list. *)
Theorem merge_is_duplicate_free_union lists :
  NoDup (merge_and_deduplicate_dynamic lists) /\
  (forall s, s ∈ merge_and_deduplicate_dynamic lists <-> listed lists s) /\
  (merge_and_deduplicate_dynamic lists = [] <-> Forall (fun l => l = []) lists).
Proof.
  split; [apply NoDup_merge|]. split; [apply elem_of_merge|].
  split.
  - intros E. apply Forall_forall. intros l Hl.
    destruct l as [|s l]; [done|].
    assert (s ∈ merge_and_deduplicate_dynamic lists) as Hs.
    { apply elem_of_merge. exists (s :: l). split; [done|apply list_elem_of_here]. }
    rewrite E in Hs. by apply elem_of_nil in Hs.
  - intros Hall. apply elem_of_nil_inv. intros s (l & Hl & Hs)%elem_of_merge.
    rewrite Forall_forall in Hall. rewrite (Hall l Hl) in Hs. by apply elem_of_nil in Hs.
Qed.

(** X8: the merge and the universe depend only on which symbols the sources
    list, not on the order of the sources, the order within a source, or
    repetitions: two collections of lists with the same symbols give the
    same symbols, each as often. *)
Theorem universe_ignores_order_and_repetition lists1 lists2 :
  (forall s, listed lists1 s <-> listed lists2 s) ->
  merge_and_deduplicate_dynamic lists1 ≡ₚ merge_and_deduplicate_dynamic lists2 /\
  build_universe lists1 ≡ₚ build_universe lists2.
Proof.
  intros H.
  assert (merge_and_deduplicate_dynamic lists1 ≡ₚ merge_and_deduplicate_dynamic lists2) as Hp.
  { apply NoDup_Permutation; [apply NoDup_merge|apply NoDup_merge|].
    intros s. by rewrite !elem_of_merge. }
  split; [done|]. unfold build_universe. by rewrite Hp.
Qed.

Lemma universe_ignores_order_and_repetition_witness :
  build_universe [["MSFT"; "AAPL"; "MSFT"]; ["BRK.B"]]
  ≡ₚ build_universe [["BRK.B"; "AAPL"]; []; ["AAPL"; "MSFT"]].
Proof.
  refine (proj2 (universe_ignores_order_and_repetition
                   [["MSFT"; "AAPL"; "MSFT"]; ["BRK.B"]]
                   [["BRK.B"; "AAPL"]; []; ["AAPL"; "MSFT"]] _)).
  intros s. unfold listed. split; intros (l & Hl & Hs);
    repeat (apply elem_of_cons in Hl as [->|Hl]);
    try (by apply elem_of_nil in Hl);
    repeat (apply elem_of_cons in Hs as [->|Hs]);
    try (by apply elem_of_nil in Hs);
    first [ exists ["MSFT"; "AAPL"; "MSFT"]; split; [repeat constructor|repeat constructor]; fail
          | exists ["BRK.B"]; split; [repeat constructor|repeat constructor]; fail
          | exists ["BRK.B"; "AAPL"]; split; [repeat constructor|repeat constructor]; fail
          | exists ["AAPL"; "MSFT"]; split; [repeat constructor|repeat constructor]; fail ].
Defined.

(** X9: the normalisation is idempotent, and no universe holds "BRK.B" or
    "BF.B": whatever the sources list, these two symbols occur in the
    universe in their dashed form only. *)
Theorem universe_has_no_dotted_class_B lists :
  (forall s, normalize_symbol (normalize_symbol s) = normalize_symbol s) /\
  ("BRK.B" ∉ build_universe lists) /\
  ("BF.B" ∉ build_universe lists).
Proof.
  assert (forall s, normalize_symbol s <> "BRK.B" /\ normalize_symbol s <> "BF.B") as Hn.
  { intros s.
    destruct (decide (s = "BRK.B")) as [->|?]; [by split|].
    destruct (decide (s = "BF.B")) as [->|?]; [by split|].
    by rewrite normalize_symbol_other. }
  split; [|split].
  - intros s. destruct (Hn s). by apply normalize_symbol_other.
  - intros (s & _ & E)%elem_of_build_universe. by destruct (Hn s).
  - intros (s & _ & E)%elem_of_build_universe. by destruct (Hn s).
Qed.

(** X10: only "BRK.B" and "BF.B" are remapped: any other symbol, dotted or
    not ("BRK.A", say), other than the two dashed forms, is in the universe
    exactly when a source lists it, and is then in it once. *)
Theorem universe_keeps_other_symbols lists s :
  s <> "BRK.B" -> s <> "BF.B" -> s <> "BRK-B" -> s <> "BF-B" ->
  (s ∈ build_universe lists <-> listed lists s) /\
  (listed lists s -> length (filter (fun x => x = s) (build_universe lists)) = 1%nat).
Proof.
  intros H1 H2 H3 H4.
  assert (forall x, normalize_symbol x = s -> x = s) as Hs.
  { intros x.
    destruct (decide (x = "BRK.B")) as [->|?]; [by intros <-|].
    destruct (decide (x = "BF.B")) as [->|?]; [by intros <-|].
    by rewrite normalize_symbol_other. }
  pose proof (normalize_symbol_other s H1 H2) as Hfix.
  split.
  - rewrite elem_of_build_universe. split.
    + intros (x & Hx & E). symmetry in E. apply Hs in E. by subst.
    + intros Hl. by exists s.
  - intros Hl%elem_of_merge. unfold build_universe.
    pose proof (NoDup_merge lists) as Hnd.
    induction (merge_and_deduplicate_dynamic lists) as [|x l IH]; [by apply elem_of_nil in Hl|].
    apply NoDup_cons in Hnd as [Hx Hnd]. csimpl. rewrite filter_cons.
    destruct (decide (normalize_symbol x = s)) as [E|E].
    + apply Hs in E as ->. simpl. f_equal.
      apply length_zero_iff_nil, elem_of_nil_inv. intros y [Hy1 Hy2]%list_elem_of_filter.
      apply list_elem_of_fmap in Hy2 as (z & -> & Hz). apply Hs in Hy1 as ->. done.
    + apply IH; [|done]. apply elem_of_cons in Hl as [->|Hl]; [|done].
      by destruct E.
Qed.

Lemma universe_keeps_other_symbols_witness :
  "BRK.A" ∈ build_universe [["BRK.A"; "BRK.B"]; ["BRK.A"]].
Proof.
  apply (universe_keeps_other_symbols [["BRK.A"; "BRK.B"]; ["BRK.A"]] "BRK.A");
    try discriminate.
  exists ["BRK.A"]. split; repeat constructor.
Defined.

(** ** Common info keys *)

(** X11: [common_info_keys] without a ticker fails with TypeError; with at
    least one ticker it returns exactly the keys that the info of every
    given ticker has. *)
Theorem common_info_keys_intersection keys tickers :
  match common_info_keys keys tickers with
  | inl e => tickers = [] /\ e = TypeError
  | inr common => tickers <> [] /\
                  forall k, k ∈ common <-> forall t, t ∈ tickers -> k ∈ keys t
  end.
Proof.
  unfold common_info_keys. destruct tickers as [|t ts]; simpl; [done|].
  split; [done|]. intros k.
  assert (forall (X : gset string) l,
            k ∈ foldl (∩) X (keys <$> l) <-> k ∈ X /\ forall t', t' ∈ l -> k ∈ keys t') as H.
  { intros X l. revert X. induction l as [|t' l IH]; intros X; simpl.
    - split; [intros ?; split; [done|]; by intros ? ?%elem_of_nil|by intros [? _]].
    - rewrite IH, elem_of_intersection. split.
      + intros [[? ?] Hl]. split; [done|].
        intros t'' [->|?]%elem_of_cons; auto.
      + intros [? Hl]. split; [split; [done|]|].
        * apply Hl, list_elem_of_here.
        * intros t'' ?. by apply Hl, list_elem_of_further. }
  rewrite H. split.
  - intros [? Hl] t' [->|?]%elem_of_cons; auto.
  - intros Hl. split; [apply Hl, list_elem_of_here|].
    intros t' ?. by apply Hl, list_elem_of_further.
Qed.

(** ** Statement assembler *)

Lemma elem_of_concat {A} (x : A) (ls : list (list A)) :
  x ∈ concat ls <-> exists l, l ∈ ls /\ x ∈ l.
Proof.
  induction ls as [|l ls IH]; simpl.
  - split; [by intros ?%elem_of_nil|]. by intros (? & ?%elem_of_nil & _).
  - rewrite elem_of_app, IH. split.
    + intros [?|(l' & ? & ?)]; [exists l|exists l']; split; auto using list_elem_of_here, list_elem_of_further.
    + intros (l' & [->|?]%elem_of_cons & ?); eauto.
Qed.

Lemma assemble_ticker_frame yf symbol : assemble yf symbol = Ok (ticker_frame yf symbol).
Proof. reflexivity. Qed.

Lemma fetch_fundamental_data_frames yf tickers :
  fetch_fundamental_data yf tickers =
  final_df ← pd_concat (ticker_frame yf <$> tickers); Ok (reset_index final_df).
Proof.
  unfold fetch_fundamental_data.
  by rewrite (mapM_Ok (assemble yf) (ticker_frame yf)).
Qed.

Lemma index_ticker_frame yf symbol :
  index (ticker_frame yf symbol) = pair symbol <$> reporting_periods (yf symbol).
Proof. reflexivity. Qed.

Lemma columns_ticker_frame yf symbol :
  columns (ticker_frame yf symbol) =
  filter (fun c => c <> "Ticker") (statement_labels (yf symbol)).
Proof. reflexivity. Qed.

Local Ltac check_tables :=
  unfold statement_tables;
  repeat (apply Forall_cons; split); try apply Forall_nil_2;
  repeat split; try reflexivity;
  try (repeat (apply Forall_cons; split); try apply Forall_nil_2; reflexivity);
  try (apply (bool_decide_unpack _); vm_compute; exact I).

Lemma pd_concat_nonempty `{EqDecision C} {I} (objs : list (frame I C)) :
  objs <> [] ->
  pd_concat objs =
  Ok {| index := concat (index <$> objs);
        columns := unique (concat (columns <$> objs));
        values := concat ((fun g => reindex_row (columns g)
                                      (unique (concat (columns <$> objs))) <$> values g)
                            <$> objs) |}.
Proof. by destruct objs. Qed.

Lemma concat_index_ticker_frames yf tickers :
  concat (index <$> (ticker_frame yf <$> tickers)) = row_keys yf tickers.
Proof.
  unfold row_keys. induction tickers as [|t ts IH]; [done|].
  rewrite !fmap_cons, index_ticker_frame, bind_cons. cbn [concat]. by rewrite IH.
Qed.

Lemma length_values_ticker_frame yf symbol :
  length (values (ticker_frame yf symbol)) = length (reporting_periods (yf symbol)).
Proof.
  unfold ticker_frame, set_index_Ticker, transpose. cbn [values columns].
  by rewrite !length_fmap, length_seq.
Qed.

Lemma length_ticker_frames_rows yf tickers (g : frame (string * Period) string -> list float -> list float) :
  length (concat ((fun f => g f <$> values f) <$> (ticker_frame yf <$> tickers)))
  = length (row_keys yf tickers).
Proof.
  unfold row_keys. induction tickers as [|t ts IH]; [done|].
  rewrite !fmap_cons, bind_cons. cbn [concat]. rewrite !length_app, IH. f_equal.
  by rewrite !length_fmap, length_values_ticker_frame.
Qed.

(** The table [fetch_fundamental_data] returns, field by field. *)
Lemma fetch_fundamental_data_Ok yf tickers df :
  fetch_fundamental_data yf tickers = Ok df ->
  let frames := ticker_frame yf <$> tickers in
  let cols := unique (concat (columns <$> frames)) in
  tickers <> [] /\
  Ticker df = fst <$> row_keys yf tickers /\
  Period_column df = snd <$> row_keys yf tickers /\
  line_items df = cols /\
  cells df = concat ((fun f => reindex_row (columns f) cols <$> values f) <$> frames).
Proof.
  rewrite fetch_fundamental_data_frames. destruct (decide (tickers = [])) as [->|Hne]; [done|].
  rewrite pd_concat_nonempty by (by destruct tickers).
  intros [= <-]. unfold reset_index. cbn [Ticker Period_column line_items cells index columns values].
  by rewrite concat_index_ticker_frames.
Qed.

Lemma fst_row_keys yf tickers :
  fst <$> row_keys yf tickers =
  t ← tickers; replicate (length (reporting_periods (yf t))) t.
Proof.
  unfold row_keys. induction tickers as [|t ts IH]; [done|].
  rewrite !bind_cons, fmap_app, IH. f_equal.
  rewrite <- list_fmap_compose. by apply const_fmap.
Qed.

Lemma elem_of_row_keys yf tickers t p :
  (t, p) ∈ row_keys yf tickers <->
  t ∈ tickers /\ exists f, f ∈ statement_frames (yf t) /\ p ∈ columns f.
Proof.
  unfold row_keys, reporting_periods. rewrite list_elem_of_bind. split.
  - intros (t' & (p' & [= <- <-] & Hp)%list_elem_of_fmap & Ht). split; [done|].
    apply elem_of_unique, elem_of_concat in Hp as (l & (f & -> & Hf)%list_elem_of_fmap & Hp).
    eauto.
  - intros (Ht & f & Hf & Hp). exists t. split; [|done].
    apply list_elem_of_fmap. exists p. split; [done|].
    apply elem_of_unique, elem_of_concat. exists (columns f). split; [|done].
    apply list_elem_of_fmap. eauto.
Qed.

(** X13: on statement tables of the provider, the rows of the assembled
    table are grouped by ticker in the order of the ticker list, a ticker
    has one row per distinct reporting period of its three statements, the
    (ticker, period) pairs of the rows are exactly those of a listed ticker
    with a period that one of its statements has, and the Ticker column,
    the period column and the cells have one entry per row. *)
Theorem fetch_fundamental_data_rows yf tickers df :
  statement_tables yf tickers ->
  fetch_fundamental_data yf tickers = Ok df ->
  Ticker df = (t ← tickers; replicate (length (reporting_periods (yf t))) t) /\
  length (Period_column df) = length (Ticker df) /\
  length (cells df) = length (Ticker df) /\
  forall t p,
    (t, p) ∈ zip (Ticker df) (Period_column df) <->
    t ∈ tickers /\ exists f, f ∈ statement_frames (yf t) /\ p ∈ columns f.
Proof.
  intros _ (_ & HT & HP & _ & ->)%fetch_fundamental_data_Ok.
  rewrite <- fst_row_keys, HT, HP, zip_fst_snd, !length_fmap, length_ticker_frames_rows.
  split; [done|]. split; [done|]. split; [done|]. intros t p. apply elem_of_row_keys.
Qed.

Lemma fetch_fundamental_data_rows_witness :
  exists df,
    fetch_fundamental_data two_period_provider ["X"; "Y"] = Ok df /\
    Ticker df = ["X"; "X"; "Y"; "Y"].
Proof.
  destruct (fetch_fundamental_data two_period_provider ["X"; "Y"]) as [df|e] eqn:E.
  - exists df. split; [reflexivity|].
    refine (proj1 (fetch_fundamental_data_rows two_period_provider ["X"; "Y"] df _ E)).
    check_tables.
  - vm_compute in E. discriminate E.
Defined.

(** X14: on statement tables of the provider, when no ticker is repeated
    in the list, no two rows of the assembled table have the same ticker
    and period. *)
Theorem fetch_fundamental_data_distinct_rows yf tickers df :
  statement_tables yf tickers ->
  NoDup tickers ->
  fetch_fundamental_data yf tickers = Ok df ->
  NoDup (zip (Ticker df) (Period_column df)).
Proof.
  intros _ Hnd (_ & -> & -> & _)%fetch_fundamental_data_Ok.
  rewrite zip_fst_snd. unfold row_keys. apply NoDup_bind; [| |done].
  - intros t1 t2 [t p] _ _ (? & [= <- <-] & _)%list_elem_of_fmap
      (? & [= <- <-] & _)%list_elem_of_fmap. done.
  - intros t _. apply NoDup_fmap_2; [|apply NoDup_unique]. by intros ?? [=].
Qed.

Lemma fetch_fundamental_data_distinct_rows_witness :
  exists df,
    fetch_fundamental_data one_period_provider ["X"; "Y"] = Ok df /\
    NoDup (zip (Ticker df) (Period_column df)).
Proof.
  destruct (fetch_fundamental_data one_period_provider ["X"; "Y"]) as [df|e] eqn:E.
  - exists df. split; [reflexivity|].
    apply (fetch_fundamental_data_distinct_rows one_period_provider ["X"; "Y"] df);
      [check_tables| |exact E].
    apply (bool_decide_unpack _). vm_compute. exact I.
  - vm_compute in E. discriminate E.
Defined.

Lemma elem_of_line_items yf tickers df label :
  fetch_fundamental_data yf tickers = Ok df ->
  label ∈ line_items df <->
  label <> "Ticker" /\ exists t, t ∈ tickers /\ label ∈ statement_labels (yf t).
Proof.
  intros (_ & _ & _ & -> & _)%fetch_fundamental_data_Ok.
  rewrite elem_of_unique, elem_of_concat. split.
  - intros (l & (F & -> & (t & -> & Ht)%list_elem_of_fmap)%list_elem_of_fmap & Hl).
    rewrite columns_ticker_frame in Hl. apply list_elem_of_filter in Hl as [? ?]. eauto.
  - intros (Hne & t & Ht & Hl). exists (columns (ticker_frame yf t)). split.
    + apply list_elem_of_fmap. exists (ticker_frame yf t). split; [done|].
      apply list_elem_of_fmap. eauto.
    + rewrite columns_ticker_frame. by apply list_elem_of_filter.
Qed.

(** X15: on statement tables of the provider, the line items of the
    assembled table are, each once, the row labels of the statements of the
    listed tickers other than 'Ticker', and every row of the table has one
    cell per line item. *)
Theorem fetch_fundamental_data_line_items yf tickers df :
  statement_tables yf tickers ->
  fetch_fundamental_data yf tickers = Ok df ->
  NoDup (line_items df) /\
  (forall label,
     label ∈ line_items df <->
     label <> "Ticker" /\ exists t, t ∈ tickers /\ label ∈ statement_labels (yf t)) /\
  Forall (fun row => length row = length (line_items df)) (cells df).
Proof.
  intros _ HOk. split; [|split].
  - apply fetch_fundamental_data_Ok in HOk as (_ & _ & _ & -> & _). apply NoDup_unique.
  - intros label. by apply elem_of_line_items.
  - apply fetch_fundamental_data_Ok in HOk as (_ & _ & _ & -> & ->).
    apply Forall_forall. intros row (l & (F & -> & _)%list_elem_of_fmap & Hrow)%elem_of_concat.
    apply list_elem_of_fmap in Hrow as (row' & -> & _).
    unfold reindex_row. by rewrite length_fmap.
Qed.

Lemma fetch_fundamental_data_line_items_witness :
  exists df,
    fetch_fundamental_data one_period_provider ["X"] = Ok df /\
    "Total Revenue" ∈ line_items df.
Proof.
  destruct (fetch_fundamental_data one_period_provider ["X"]) as [df|e] eqn:E.
  - exists df. split; [reflexivity|].
    assert (statement_tables one_period_provider ["X"]) as Htables by check_tables.
    apply (proj1 (proj2 (fetch_fundamental_data_line_items one_period_provider ["X"] df Htables E))).
    split; [discriminate|]. exists "X". split; [apply list_elem_of_here|].
    apply list_elem_of_here.
  - vm_compute in E. discriminate E.
Defined.

Lemma position_cons `{EqDecision A} (x a : A) l :
  position x (a :: l) = if decide (a = x) then Some 0%nat else S <$> position x l.
Proof.
  unfold position. simpl. destruct (decide (a = x)); [done|].
  by destruct (list_find (fun y => y = x) l) as [[? ?]|].
Qed.

Lemma position_app `{EqDecision A} (x : A) l1 l2 :
  position x (l1 ++ l2) =
  match position x l1 with
  | Some k => Some k
  | None => (fun k => length l1 + k)%nat <$> position x l2
  end.
Proof.
  induction l1 as [|a l1 IH]; simpl.
  - by destruct (position x l2).
  - rewrite !position_cons. destruct (decide (a = x)); [done|].
    rewrite IH. destruct (position x l1); [done|]. by destruct (position x l2).
Qed.

Lemma position_lt `{EqDecision A} (x : A) l k : position x l = Some k -> (k < length l)%nat.
Proof.
  unfold position. destruct (list_find (fun y => y = x) l) as [[j y]|] eqn:E; [|done].
  intros [= <-]. apply list_find_Some in E as (E & _). by eapply lookup_lt_Some.
Qed.

Lemma position_elem_of `{EqDecision A} (x : A) l k : position x l = Some k -> x ∈ l.
Proof.
  unfold position. destruct (list_find (fun y => y = x) l) as [[j y]|] eqn:E; [|done].
  intros _. apply list_find_Some in E as (E & -> & _). by eapply list_elem_of_lookup_2.
Qed.

Lemma filter_fmap_list {A B} (f : A -> B) (P : B -> Prop) `{forall y, Decision (P y)} (l : list A) :
  filter P (f <$> l) = f <$> filter (fun x => P (f x)) l.
Proof.
  induction l as [|a l IH]; [done|].
  rewrite fmap_cons, !filter_cons. destruct (decide (P (f a))); by rewrite IH.
Qed.

(** The columns [set_index] keeps: the position of a label among the kept
    labels leads to its position among all labels. *)
Lemma kept_label (labels : list string) (c : string) (g : nat -> float) :
  c <> "Ticker" ->
  match position c (filter (fun c => c <> "Ticker") labels) with
  | Some m =>
      cell (g <$> filter (fun j => labels !! j ≠ Some "Ticker") (seq 0 (length labels))) m
  | None => nan
  end =
  match position c labels with
  | Some k => g k
  | None => nan
  end.
Proof.
  intros Hc. revert g. induction labels as [|a labels IH]; intros g; [done|].
  cbn [length seq]. rewrite <- fmap_S_seq, !filter_cons, filter_fmap_list, position_cons.
  cbn [lookup list_lookup].
  specialize (IH (fun k => g (S k))).
  destruct (decide (a <> "Ticker")) as [Ha|Ha].
  - rewrite decide_True by congruence. rewrite position_cons, fmap_cons, <- list_fmap_compose.
    destruct (decide (a = c)) as [->|Hac]; [done|].
    revert IH. destruct (position c labels); intros IH; simpl; rewrite <- IH;
      by destruct (position c (filter _ labels)).
  - rewrite decide_False by (intros H; apply Ha; congruence).
    rewrite decide_False by (intros ->; done).
    rewrite <- list_fmap_compose.
    revert IH. destruct (position c labels); intros IH; simpl; rewrite <- IH;
      by destruct (position c (filter _ labels)).
Qed.

Lemma position_not_elem_of `{EqDecision A} (x : A) l : x ∉ l -> position x l = None.
Proof.
  intros Hx. destruct (position x l) as [k|] eqn:E; [|done].
  by apply position_elem_of in E.
Qed.

(** Rows stacked by [pd.concat]: the row under a label is the row of the
    first frame that has the label. *)
Lemma stacked_row (fs : list (frame string Period))
    (R : frame string Period -> list float -> list float) (h : list float -> float) c :
  Forall (fun f => length (values f) = length (index f)) fs ->
  match position c (concat (index <$> fs)) with
  | Some k => default nan (h <$> concat ((fun f => R f <$> values f) <$> fs) !! k)
  | None => nan
  end =
  match list_find (fun f => c ∈ index f) fs with
  | Some (_, f) =>
      match position c (index f) with
      | Some r => default nan ((fun row => h (R f row)) <$> values f !! r)
      | None => nan
      end
  | None => nan
  end.
Proof.
  induction 1 as [|f fs Hf _ IH]; [done|].
  rewrite !fmap_cons. cbn [concat list_find]. rewrite position_app.
  destruct (decide (c ∈ index f)) as [Hc|Hc].
  - destruct (position_Some c (index f) Hc) as (r & Hr & _). rewrite Hr.
    rewrite lookup_app_l by (rewrite length_fmap, Hf; by eapply position_lt).
    rewrite list_lookup_fmap. by destruct (values f !! r).
  - rewrite (position_not_elem_of c (index f) Hc).
    revert IH. destruct (position c (concat (index <$> fs))) as [k|]; intros IH; simpl.
    + rewrite lookup_app_r by (rewrite length_fmap, Hf; lia).
      rewrite length_fmap, Hf.
      replace (length (index f) + k - length (index f))%nat with k by lia.
      rewrite IH. by destruct (list_find _ fs) as [[? ?]|].
    + by destruct (list_find _ fs) as [[? ?]|].
Qed.

Lemma cell_reindex_row `{EqDecision C} (old new : list C) row j p :
  new !! j = Some p ->
  cell (reindex_row old new row) j =
  match position p old with Some j' => cell row j' | None => nan end.
Proof. intros Hp. unfold reindex_row, cell at 1. by rewrite list_lookup_fmap, Hp. Qed.

(** The rows a ticker contributes, laid out for the columns of the table. *)
Lemma ticker_frame_rows yf t cols :
  Forall (fun f => length (values f) = length (index f)) (statement_frames (yf t)) ->
  "Ticker" ∉ cols ->
  reindex_row (columns (ticker_frame yf t)) cols <$> values (ticker_frame yf t) =
  (fun p => (fun c => statement_value (yf t) c p) <$> cols) <$> reporting_periods (yf t).
Proof.
  intros Hshape Hcols.
  unfold ticker_frame, set_index_Ticker, transpose. cbn [values columns index].
  apply list_eq. intros j. rewrite !list_lookup_fmap.
  destruct (reporting_periods (yf t) !! j) as [p|] eqn:Hp.
  - rewrite lookup_seq_lt by (by eapply lookup_lt_Some). simpl. f_equal.
    unfold reindex_row. apply list_fmap_ext. intros _ c Hc%list_elem_of_lookup_2.
    rewrite kept_label by (intros ->; done).
    unfold statement_value, statement_labels.
    etrans; [|etrans; [apply (stacked_row (statement_frames (yf t))
                (fun f => reindex_row (columns f) (reporting_periods (yf t)))
                (fun row => cell row j) c Hshape)|]].
    { destruct (position c _); [|done]. unfold cell at 1. by rewrite list_lookup_fmap. }
    destruct (list_find _ (statement_frames (yf t))) as [[? f]|]; [|done].
    unfold frame_cell.
    destruct (position c (index f)) as [r|]; [|done]. simpl.
    destruct (values f !! r) as [row|]; simpl.
    + rewrite (cell_reindex_row _ _ _ _ p) by done.
      by destruct (position p (columns f)).
    + by destruct (position p (columns f)).
  - rewrite lookup_seq_ge by (by apply lookup_ge_None). done.
Qed.

Lemma stacked_ticker_rows yf tickers cols :
  Forall (fun t => Forall (fun f => length (values f) = length (index f))
                     (statement_frames (yf t))) tickers ->
  "Ticker" ∉ cols ->
  concat ((fun f => reindex_row (columns f) cols <$> values f) <$> (ticker_frame yf <$> tickers)) =
  (fun k => (fun c => statement_value (yf k.1) c k.2) <$> cols) <$> row_keys yf tickers.
Proof.
  intros Hshape Hcols. unfold row_keys.
  induction Hshape as [|t ts Ht _ IH]; [done|].
  rewrite !fmap_cons, bind_cons, fmap_app. cbn [concat]. rewrite IH. f_equal.
  rewrite ticker_frame_rows by done. by rewrite <- list_fmap_compose.
Qed.

Lemma statement_tables_shape yf tickers :
  statement_tables yf tickers ->
  Forall (fun t => Forall (fun f => length (values f) = length (index f))
                     (statement_frames (yf t))) tickers.
Proof.
  intros H. eapply Forall_impl; [exact H|]. intros t [Ht _].
  eapply Forall_impl; [exact Ht|]. by intros f [[? _] _].
Qed.

(** X16: on statement tables of the provider, the cell of a row of the
    assembled table under a line item holds what the provider reports for
    the row's ticker, that line item and the row's period: the cell of the
    ticker's statement that has the line item, NaN when the ticker has no
    such line item or that statement lacks the period. *)
Theorem fetch_fundamental_data_cell yf tickers df i t p label :
  statement_tables yf tickers ->
  fetch_fundamental_data yf tickers = Ok df ->
  Ticker df !! i = Some t ->
  Period_column df !! i = Some p ->
  label ∈ line_items df ->
  value_at df i label = statement_value (yf t) label p.
Proof.
  intros Hshape%statement_tables_shape HOk Ht Hp Hlabel.
  pose proof HOk as (_ & HT & HP & Hcols & Hcells)%fetch_fundamental_data_Ok.
  rewrite <- Hcols in Hcells. rewrite stacked_ticker_rows in Hcells; [|done|].
  - rewrite HT, list_lookup_fmap in Ht. rewrite HP, list_lookup_fmap in Hp.
    destruct (row_keys yf tickers !! i) as [[t' p']|] eqn:Hk; [|done].
    simpl in Ht, Hp. injection Ht as ->. injection Hp as ->.
    destruct (position_Some label (line_items df) Hlabel) as (j & Hj & Hjl).
    unfold value_at, getitem. rewrite Hj, Hcells, !list_lookup_fmap, Hk. simpl.
    unfold cell. by rewrite list_lookup_fmap, Hjl.
  - rewrite Hcols. intros (l & (f & -> & (s & -> & _)%list_elem_of_fmap)%list_elem_of_fmap & Hl)%elem_of_unique%elem_of_concat.
    rewrite columns_ticker_frame in Hl. by apply list_elem_of_filter in Hl as [? _].
Qed.

Lemma fetch_fundamental_data_cell_witness :
  exists df,
    fetch_fundamental_data two_period_provider ["X"] = Ok df /\
    value_at df 0 "Free Cash Flow" =
      statement_value (two_period_provider "X") "Free Cash Flow" "2023-12-31" /\
    value_at df 1 "Free Cash Flow" =
      statement_value (two_period_provider "X") "Free Cash Flow" "2022-12-31".
Proof.
  destruct (fetch_fundamental_data two_period_provider ["X"]) as [df|e] eqn:E.
  - exists df. split; [reflexivity|].
    assert (statement_tables two_period_provider ["X"]) as Htables by check_tables.
    split.
    + apply (fetch_fundamental_data_cell two_period_provider ["X"] df 0 "X"
               "2023-12-31" "Free Cash Flow" Htables E);
        injection E as <-; vm_compute; try reflexivity.
      apply list_elem_of_further, list_elem_of_here.
    + apply (fetch_fundamental_data_cell two_period_provider ["X"] df 1 "X"
               "2022-12-31" "Free Cash Flow" Htables E);
        injection E as <-; vm_compute; try reflexivity.
      apply list_elem_of_further, list_elem_of_here.
  - vm_compute in E. discriminate E.
Defined.

(** ** Growth screen *)

Lemma getitem_Ok df label col :
  getitem df label = Ok col -> label ∈ line_items df /\ length col = length (cells df).
Proof.
  unfold getitem. destruct (position label (line_items df)) as [j|] eqn:E; [|done].
  intros [= <-]. split; [by eapply position_elem_of|]. by rewrite length_fmap.
Qed.

Lemma get_growth_filter_length df mask :
  Forall (fun c => c ∈ line_items df) screen_columns ->
  get_growth_filter df = Ok mask -> length mask = length (cells df).
Proof.
  intros H. rewrite (get_growth_filter_rowwise df H). intros [= <-].
  by rewrite length_fmap, length_seq.
Qed.

Lemma get_growth_filter_Ok_columns df mask :
  get_growth_filter df = Ok mask -> Forall (fun c => c ∈ line_items df) screen_columns.
Proof.
  unfold get_growth_filter, screen_columns.
  repeat match goal with
         | |- context [getitem df ?l] =>
             let E := fresh "E" in
             destruct (getitem df l) eqn:E; simpl;
             [apply getitem_Ok in E as [E _]|discriminate]
         end.
  intros _. repeat (apply Forall_cons; split; [assumption|]). apply Forall_nil_2.
Qed.

(** X17: among the tables with distinct column labels,
    [get_growth_filter] returns exactly on those that have the eleven line
    items it reads, and then one boolean per row; on any other it raises
    the KeyError of the first line item, in the order the expression reads
    them, that the table lacks. *)
Theorem get_growth_filter_first_missing_column df :
  NoDup (line_items df) ->
  match get_growth_filter df with
  | Ok mask =>
      Forall (fun c => c ∈ line_items df) screen_columns /\
      length mask = length (cells df)
  | Raise e =>
      exists present label rest,
        screen_columns = (present ++ label :: rest)%list /\
        Forall (fun c => c ∈ line_items df) present /\
        (label ∉ line_items df) /\
        e = KeyError label
  end.
Proof.
  intros _. destruct (get_growth_filter df) as [mask|e] eqn:E.
  - pose proof (get_growth_filter_Ok_columns df mask E) as H.
    split; [done|]. by apply get_growth_filter_length.
  - revert E. unfold get_growth_filter.
    repeat match goal with
           | |- context [getitem df ?l] =>
               let E := fresh "E" in
               destruct (getitem df l) eqn:E; simpl;
               [ apply getitem_Ok in E as [E _]
               | intros [= <-]; apply getitem_raises in E as [-> E];
                 let k := eval vm_compute in (default 0%nat (position l screen_columns)) in
                 let present := eval vm_compute in (take k screen_columns) in
                 let rest := eval vm_compute in (drop (S k) screen_columns) in
                 exists present, l, rest;
                 split; [reflexivity|]; split; [|split; [assumption|reflexivity]];
                 repeat (apply Forall_cons; split; [assumption|]); apply Forall_nil_2 ]
           end.
    discriminate.
Qed.

Lemma get_growth_filter_first_missing_column_witness :
  get_growth_filter margins_only = Raise (KeyError "EBITDA") /\
  match get_growth_filter margins_only with
  | Ok mask =>
      Forall (fun c => c ∈ line_items margins_only) screen_columns /\
      length mask = length (cells margins_only)
  | Raise e =>
      exists present label rest,
        screen_columns = (present ++ label :: rest)%list /\
        Forall (fun c => c ∈ line_items margins_only) present /\
        (label ∉ line_items margins_only) /\
        e = KeyError label
  end.
Proof.
  split; [reflexivity|].
  apply (get_growth_filter_first_missing_column margins_only).
  apply (bool_decide_unpack _). vm_compute. exact I.
Defined.

Lemma mul_nan_r x : (x * nan)%float = nan.
Proof. apply Prim2SF_inj. rewrite mul_spec, Prim2SF_nan. by destruct (Prim2SF x). Qed.

(** A row with a missing value in a line item the screen reads fails. *)
Lemma missing_value_fails cur prior label :
  label ∈ screen_columns -> cur label = nan -> all_ten_criteria cur prior = false.
Proof.
  unfold screen_columns, all_ten_criteria. intros Hin Hnan.
  repeat (apply elem_of_cons in Hin as [->|Hin];
          [ rewrite !Hnan, ?div_nan_l, ?div_nan_r, ?mul_nan_r, ?ltb_nan_l, ?ltb_nan_r;
            by rewrite ?andb_false_r
          | ]).
  by apply elem_of_nil in Hin.
Qed.

(** So does a row whose revenue or earnings per share are compared with a
    missing value. *)
Lemma missing_prior_fails cur prior label :
  label ∈ ["Total Revenue"; "Diluted EPS"] -> prior label = nan ->
  all_ten_criteria cur prior = false.
Proof.
  unfold all_ten_criteria. intros Hin Hnan.
  repeat (apply elem_of_cons in Hin as [->|Hin];
          [ rewrite !Hnan, ?ltb_nan_l; by rewrite ?andb_false_r | ]).
  by apply elem_of_nil in Hin.
Qed.

(** X18: a row with a missing value (NaN) under any of the eleven line
    items the screen reads is not marked, and a missing Total Revenue or
    Diluted EPS also keeps the row below it from being marked. *)
Theorem missing_value_screens_false df mask i label :
  get_growth_filter df = Ok mask ->
  label ∈ screen_columns ->
  (i < length (cells df))%nat ->
  value_at df i label = nan ->
  mask !! i = Some false /\
  (label ∈ ["Total Revenue"; "Diluted EPS"] -> (S i < length (cells df))%nat ->
   mask !! S i = Some false).
Proof.
  intros HOk Hlabel Hi Hnan.
  pose proof (get_growth_filter_Ok_columns df mask HOk) as H.
  rewrite (get_growth_filter_rowwise df H) in HOk.
  injection HOk as <-. split.
  - rewrite list_lookup_fmap, lookup_seq_lt by done. simpl. f_equal.
    by eapply missing_value_fails.
  - intros Hgrowth HSi. rewrite list_lookup_fmap, lookup_seq_lt by done. simpl. f_equal.
    eapply missing_prior_fails; [done|]. by rewrite prior_value_is_previous_row.
Qed.

Lemma missing_value_screens_false_witness :
  exists mask,
    get_growth_filter null_operating_income = Ok mask /\
    mask !! 1%nat = Some false.
Proof.
  destruct (get_growth_filter null_operating_income) as [mask|e] eqn:E.
  - exists mask. split; [reflexivity|].
    refine (proj1 (missing_value_screens_false null_operating_income mask 1
                     "Operating Income" E _ _ _)).
    + apply list_elem_of_further, list_elem_of_here.
    + simpl. lia.
    + reflexivity.
  - vm_compute in E. discriminate E.
Defined.

Lemma all_ten_criteria_ext cur cur' prior prior' :
  (forall label, cur label = cur' label) ->
  (forall label, prior label = prior' label) ->
  all_ten_criteria cur prior = all_ten_criteria cur' prior'.
Proof. intros Hc Hp. unfold all_ten_criteria. by rewrite !Hc, !Hp. Qed.

Lemma getitem_more_rows df df' more label :
  line_items df' = line_items df ->
  cells df' = (cells df ++ more)%list ->
  getitem df' label =
  match getitem df label with
  | Ok col => Ok (col ++ match position label (line_items df) with
                         | Some j => (fun row => cell row j) <$> more
                         | None => []
                         end)%list
  | Raise e => Raise e
  end.
Proof.
  intros Hl Hc. unfold getitem. rewrite Hl, Hc.
  destruct (position label (line_items df)); [|done]. by rewrite fmap_app.
Qed.

Lemma value_at_more_rows df df' more label i :
  line_items df' = line_items df ->
  cells df' = (cells df ++ more)%list ->
  (i < length (cells df))%nat ->
  value_at df' i label = value_at df i label /\
  prior_value_at df' i label = prior_value_at df i label.
Proof.
  intros Hl Hc Hi. unfold value_at, prior_value_at.
  rewrite (getitem_more_rows df df' more label Hl Hc).
  destruct (getitem df label) as [col|] eqn:E; [|done].
  apply getitem_Ok in E as [_ E]. split.
  - by rewrite lookup_app_l by lia.
  - destruct i as [|i].
    + destruct col; [simpl in E; lia|done].
    + rewrite !shift_lookup_S by (rewrite ?length_app; lia).
      by rewrite lookup_app_l by lia.
Qed.

(** X19: rows appended to a table do not change the screen of the rows
    that were there: the mask of the table is the beginning of the mask of
    the longer table. *)
Theorem get_growth_filter_more_rows df df' more mask :
  line_items df' = line_items df ->
  cells df' = (cells df ++ more)%list ->
  get_growth_filter df = Ok mask ->
  exists mask',
    get_growth_filter df' = Ok mask' /\
    length mask' = (length mask + length more)%nat /\
    take (length mask) mask' = mask.
Proof.
  intros Hl Hc HOk.
  pose proof (get_growth_filter_Ok_columns df mask HOk) as H.
  assert (Forall (fun c => c ∈ line_items df') screen_columns) as H' by (by rewrite Hl).
  rewrite (get_growth_filter_rowwise df H) in HOk. injection HOk as <-.
  rewrite (get_growth_filter_rowwise df' H'). eexists. split; [done|].
  rewrite !length_fmap, !length_seq, Hc, length_app. split; [done|].
  rewrite <- fmap_take, take_seq, Nat.min_l by lia.
  apply list_eq. intros i. rewrite !list_lookup_fmap.
  destruct (decide (i < length (cells df))%nat) as [Hi|Hi].
  - rewrite lookup_seq_lt by done. simpl. f_equal.
    apply all_ten_criteria_ext; intros label;
      by destruct (value_at_more_rows df df' more label i Hl Hc Hi).
  - by rewrite lookup_seq_ge by lia.
Qed.

Lemma get_growth_filter_more_rows_witness :
  exists mask',
    get_growth_filter zero_equity = Ok mask' /\
    length mask' = 2%nat /\
    take 1 mask' = [false].
Proof.
  apply (get_growth_filter_more_rows
           (long_table [ ("A", "P1", [100; 20; 25; 1; 0; 100; 1; 10; 20; 10; 5]%float) ])
           zero_equity
           [ [150; 30; 40; 2; -1; 0; 1; 10; 20; 10; 5]%float ]
           [false]); reflexivity.
Defined.

(** X20: a ticker is selected only through a row other than the first row
    of the table, one that meets all ten criteria with the row above it as
    the earlier period; a table of fewer than two rows selects nothing. *)
Theorem selected_tickers_need_a_row_above df selected :
  selected_tickers df = Ok selected ->
  (forall t, t ∈ selected ->
     exists i, Ticker df !! S i = Some t /\ (S i < length (cells df))%nat /\
               all_ten_criteria (value_at df (S i)) (value_at df i) = true) /\
  ((length (cells df) <= 1)%nat -> selected = []).
Proof.
  unfold selected_tickers. destruct (get_growth_filter df) as [mask|] eqn:HOk; [|done].
  simpl. intros [= <-].
  pose proof (get_growth_filter_Ok_columns df mask HOk) as H.
  rewrite (get_growth_filter_rowwise df H) in HOk. injection HOk as <-.
  assert (forall t, t ∈ unique (boolean_index (Ticker df)
             ((fun i => all_ten_criteria (value_at df i) (prior_value_at df i))
                <$> seq 0 (length (cells df)))) ->
     exists i, Ticker df !! S i = Some t /\ (S i < length (cells df))%nat /\
               all_ten_criteria (value_at df (S i)) (value_at df i) = true) as Hsel.
  { intros t (i & Ht & Hm)%elem_of_unique%elem_of_boolean_index.
    rewrite list_lookup_fmap in Hm.
    destruct (seq 0 (length (cells df)) !! i) as [k|] eqn:Hk; [|done].
    apply lookup_seq in Hk as [-> Hi]. simpl in Hm. injection Hm as Hm.
    destruct i as [|i]; [by rewrite first_row_fails in Hm|].
    exists i. split; [done|]. split; [lia|].
    rewrite <- Hm. apply all_ten_criteria_ext; [done|].
    intros label. symmetry. by apply prior_value_is_previous_row. }
  split; [done|]. intros Hlen.
  destruct (unique _) as [|t l] eqn:E; [done|].
  destruct (Hsel t) as (i & _ & Hi & _); [apply list_elem_of_here|lia].
Qed.

Lemma selected_tickers_need_a_row_above_witness :
  selected_tickers ticker_B_alone = Ok [].
Proof.
  destruct (selected_tickers ticker_B_alone) as [selected|e] eqn:E.
  - f_equal.
    apply (proj2 (selected_tickers_need_a_row_above ticker_B_alone selected E)).
    simpl. lia.
  - vm_compute in E. discriminate E.
Defined.

(** ** Weight calculator *)

Lemma mapM_result_Raise_inv {A B} (f : A -> result B) (l : list A) e :
  mapM f l = Raise e -> exists x, x ∈ l /\ f x = Raise e.
Proof.
  induction l as [|x l IH]; simpl; [done|].
  destruct (f x) as [y|e'] eqn:E; simpl.
  - destruct (mapM f l) as [k|e'] eqn:E'; simpl; [done|].
    intros [= <-]. destruct IH as (x' & ? & ?); [done|].
    exists x'. split; [by apply list_elem_of_further|done].
  - intros [= <-]. exists x. split; [apply list_elem_of_here|done].
Qed.

Lemma int_truediv_Raise a b e :
  int_truediv a b = Raise e ->
  (e = ZeroDivisionError /\ b = 0) \/
  (e = OverflowError /\ b <> 0 /\ overflow_threshold * Z.abs b <= Z.abs a).
Proof.
  unfold int_truediv. destruct (Z.eqb_spec b 0) as [->|Hb].
  - intros [= <-]. by left.
  - destruct (Z.leb_spec (overflow_threshold * Z.abs b) (Z.abs a)); [|done].
    intros [= <-]. by right.
Qed.

Lemma unique_NoDup `{EqDecision A} (l : list A) : NoDup l -> unique l = l.
Proof.
  induction l as [|x l IH] using rev_ind; [done|].
  intros [Hl [Hx _]]%NoDup_app. rewrite unique_snoc.
  destruct (decide (x ∈ l)) as [Hin|_].
  - destruct (Hx x Hin). apply list_elem_of_here.
  - by rewrite IH.
Qed.

Lemma int_truediv_Ok a b q :
  int_truediv a b = Ok q -> b <> 0 /\ Z.abs a < overflow_threshold * Z.abs b.
Proof.
  unfold int_truediv. destruct (Z.eqb_spec b 0) as [->|Hb]; [done|].
  destruct (Z.leb_spec (overflow_threshold * Z.abs b) (Z.abs a)); [done|]. by intros _.
Qed.

(** X21: [calculate_market_cap_weights] returns exactly when no ticker is
    included, or the included market caps have a sum other than zero and
    the quotient of every one of them by the sum is within the binary64
    range; its pairs are then those of the included tickers, in their
    order.  It raises ZeroDivisionError exactly when a ticker is included
    and the included market caps sum to zero, OverflowError exactly when
    the sum is not zero and the quotient of some included cap by it is
    beyond the binary64 range, and nothing else. *)
Theorem calculate_market_cap_weights_outcome info ts :
  let market_caps := included info ts in
  let total := total_market_cap market_caps in
  let beyond_range := fun p : string * Z => overflow_threshold * Z.abs total <= Z.abs p.2 in
  match calculate_market_cap_weights info ts with
  | Ok out =>
      out.*1 = market_caps.*1 /\
      (market_caps <> [] -> total <> 0) /\
      Forall (fun p => ~ beyond_range p) market_caps
  | Raise e =>
      market_caps <> [] /\
      ((e = ZeroDivisionError /\ total = 0) \/
       (e = OverflowError /\ total <> 0 /\ Exists beyond_range market_caps))
  end.
Proof.
  intros market_caps total beyond_range.
  destruct (calculate_market_cap_weights info ts) as [out|e] eqn:E.
  - split; [by rewrite (weights_keys _ _ _ E), collect_market_caps_included|].
    revert E. unfold calculate_market_cap_weights.
    rewrite collect_market_caps_included. fold market_caps. fold total.
    intros E%mapM_result_Forall2.
    assert (Forall (fun p : string * Z => total <> 0 /\ ~ beyond_range p) market_caps) as H.
    { apply Forall_forall. intros [t c] Hin.
      apply list_elem_of_lookup in Hin as [i Hi].
      destruct (Forall2_lookup_l _ _ _ _ _ E Hi) as (y & _ & Hy).
      destruct (int_truediv c total) as [q|] eqn:Eq; [|done].
      apply int_truediv_Ok in Eq as [? ?]. unfold beyond_range. simpl. split; [done|lia]. }
    split.
    + destruct market_caps as [|p d]; [done|]. intros _.
      by apply Forall_cons in H as [[? _] _].
    + eapply Forall_impl; [exact H|]. by intros p [_ ?].
  - revert E. unfold calculate_market_cap_weights.
    rewrite collect_market_caps_included. fold market_caps. fold total.
    intros ([t c] & Hin & Hraise)%mapM_result_Raise_inv.
    split; [by intros Hnil; rewrite Hnil in Hin; apply elem_of_nil in Hin|].
    destruct (int_truediv c total) as [q|e'] eqn:Eq; [done|].
    simpl in Hraise. injection Hraise as ->.
    apply int_truediv_Raise in Eq as [[-> ?]|(-> & ? & ?)]; [by left|].
    right. split; [done|]. split; [done|].
    apply Exists_exists. by exists (t, c).
Qed.

(** X22: a ticker listed more than once counts once: the weights of a list
    are those of the list without its repetitions. *)
Theorem repeated_tickers_count_once info ts :
  calculate_market_cap_weights info ts = calculate_market_cap_weights info (unique ts).
Proof.
  unfold calculate_market_cap_weights. rewrite !collect_market_caps_included.
  unfold included. by rewrite (unique_NoDup (unique ts)) by apply NoDup_unique.
Qed.

Lemma unique_Permutation `{EqDecision A} (l l' : list A) : l ≡ₚ l' -> unique l ≡ₚ unique l'.
Proof.
  intros Hp. apply NoDup_Permutation; [apply NoDup_unique..|].
  intros x. rewrite !elem_of_unique. by rewrite Hp.
Qed.

Lemma total_market_cap_Permutation (d d' : list (string * Z)) :
  d ≡ₚ d' -> total_market_cap d = total_market_cap d'.
Proof.
  unfold total_market_cap. induction 1; csimpl in *; lia.
Qed.

Lemma mapM_result_Permutation {A B} (f : A -> result B) (l l' : list A) out :
  l ≡ₚ l' -> mapM f l = Ok out -> exists out', mapM f l' = Ok out' /\ out ≡ₚ out'.
Proof.
  intros Hp. revert out. induction Hp as [|x l l' Hp IH|x y l|l l' l'' _ IH1 _ IH2]; intros out; simpl.
  - intros [= <-]. by exists [].
  - destruct (f x) as [v|]; simpl; [|done].
    destruct (mapM f l) as [k|] eqn:E; simpl; [|done]. intros [= <-].
    destruct (IH k eq_refl) as (k' & -> & Hk). simpl. exists (v :: k'). split; [done|].
    by constructor.
  - destruct (f y) as [v|]; simpl; [|done]. destruct (f x) as [u|]; simpl; [|done].
    destruct (mapM f l) as [k|]; simpl; [|done]. intros [= <-].
    exists (u :: v :: k). split; [done|]. apply perm_swap.
  - intros E. destruct (IH1 out E) as (out' & E' & Hp').
    destruct (IH2 out' E') as (out'' & E'' & Hp''). exists out''. split; [done|].
    by etrans.
Qed.

(** X23: the weights do not depend on the order of the ticker list: on a
    rearranged list the function returns the same pairs, rearranged. *)
Theorem weights_of_rearranged_list info ts ts' out :
  ts ≡ₚ ts' ->
  calculate_market_cap_weights info ts = Ok out ->
  exists out', calculate_market_cap_weights info ts' = Ok out' /\ out ≡ₚ out'.
Proof.
  intros Hp. unfold calculate_market_cap_weights. rewrite !collect_market_caps_included.
  assert (included info ts ≡ₚ included info ts') as Hi.
  { unfold included. by rewrite (unique_Permutation ts ts' Hp). }
  rewrite (total_market_cap_Permutation _ _ Hi). by apply mapM_result_Permutation.
Qed.

Lemma weights_of_rearranged_list_witness :
  exists out',
    calculate_market_cap_weights caps_A_B ["B"; "A"] = Ok out' /\
    [("A", 25%float); ("B", 75%float)] ≡ₚ out'.
Proof.
  apply (weights_of_rearranged_list caps_A_B ["A"; "B"] ["B"; "A"]).
  - apply perm_swap.
  - reflexivity.
Defined.


(** ** The script from the sources to the weights *)

Lemma selected_tickers_listed df selected t :
  selected_tickers df = Ok selected -> t ∈ selected -> t ∈ Ticker df.
Proof.
  unfold selected_tickers. destruct (get_growth_filter df) as [mask|]; [|done].
  simpl. intros [= <-] (i & Ht & _)%elem_of_unique%elem_of_boolean_index.
  by eapply list_elem_of_lookup_2.
Qed.

Lemma elem_of_Ticker yf tickers df t :
  fetch_fundamental_data yf tickers = Ok df -> t ∈ Ticker df -> t ∈ tickers.
Proof.
  intros (_ & -> & _)%fetch_fundamental_data_Ok ([t' p] & -> & Hin)%list_elem_of_fmap.
  by apply elem_of_row_keys in Hin as [? _].
Qed.

(** X24: when none of the three sources lists a symbol, the script (past
    the price download, whose result it does not use) stops with the
    ValueError of the statement assembler, which has nothing to
    concatenate. *)
Theorem no_symbols_raises_ValueError w yf info :
  fetch_sp500_tickers w = Ok [] ->
  get_dow_jones_tickers w = [] ->
  get_nasdaq_100_ticker_symbols w = Ok [] ->
  weights w yf info = Raise ValueError.
Proof.
  intros Hsp Hdj Hnq. unfold weights, tickers. rewrite Hsp, Hnq, Hdj.
  vm_compute. reflexivity.
Qed.

Lemma no_symbols_raises_ValueError_witness :
  weights web_no_symbols growing_provider caps_AAPL_MSFT = Raise ValueError.
Proof.
  apply (no_symbols_raises_ValueError web_no_symbols growing_provider caps_AAPL_MSFT);
    reflexivity.
Defined.



(** X26: every ticker the script gives a weight to is a symbol of the
    universe and reports a market cap other than zero, and no ticker is
    given two weights. *)
Theorem weighted_tickers_are_listed w yf info universe out :
  tickers w = Ok universe ->
  statement_tables yf universe ->
  weights w yf info = Ok out ->
  NoDup out.*1 /\
  forall t, t ∈ out.*1 -> t ∈ universe /\ exists cap, info t = Some cap /\ cap <> 0.
Proof.
  intros Hu _. unfold weights. rewrite Hu. simpl.
  destruct (fetch_fundamental_data yf universe) as [df|] eqn:Hdf; [|done]. simpl.
  destruct (selected_tickers df) as [selected|] eqn:Hsel; [|done]. simpl.
  intros Hout. rewrite (weights_keys _ _ _ Hout), collect_market_caps_included.
  split; [apply NoDup_included|].
  intros t [Ht Hcap]%included_keys. split; [|done].
  eapply elem_of_Ticker; [done|]. by eapply selected_tickers_listed.
Qed.

Lemma weighted_tickers_are_listed_witness :
  exists universe out,
    tickers web_all_up = Ok universe /\
    weights web_all_up growing_provider caps_AAPL_MSFT = Ok out /\
    out <> [] /\
    NoDup out.*1 /\
    forall t, t ∈ out.*1 ->
      t ∈ universe /\ exists cap, caps_AAPL_MSFT t = Some cap /\ cap <> 0.
Proof.
  destruct (tickers web_all_up) as [universe|e] eqn:Eu;
    [|vm_compute in Eu; discriminate Eu].
  destruct (weights web_all_up growing_provider caps_AAPL_MSFT) as [out|e] eqn:Eo;
    [|vm_compute in Eo; discriminate Eo].
  exists universe, out. split; [reflexivity|]. split; [reflexivity|]. split.
  - vm_compute in Eo. injection Eo as <-. discriminate.
  - apply (weighted_tickers_are_listed web_all_up growing_provider caps_AAPL_MSFT
             universe out Eu); [|exact Eo].
    apply Forall_forall. intros t _. split.
    + repeat (apply Forall_cons; split); try apply Forall_nil_2;
        (split; [split; [reflexivity|]|]);
        try (repeat (apply Forall_cons; split); try apply Forall_nil_2; reflexivity);
        apply (bool_decide_unpack _); vm_compute; exact I.
    + apply (bool_decide_unpack _). vm_compute. exact I.
Defined.


